(** * Pixel Studio: the image editor component

    A shallow embedding of [src/components/image-editor/image-editor.tsx].

    The component keeps its whole state in React [useState] cells; here
    the cells are the fields of one [Session] record, every handler is a
    function [Session -> Session], and every [setX(v)] call is the setter
    [setX v].  Handlers that finish in an [img.onload] callback are
    modelled together with that callback, assuming the decode succeeds.

    Numbers.  Slider values and the rotation angle are integers (the
    sliders have step 1 and the rotate buttons add or subtract 90), so
    they are [Z].  Pointer coordinates, bounding rectangles and pixel
    sizes are JavaScript numbers: they are modelled exactly, as [Q] where
    the code only adds, multiplies, divides and compares, and as [R] in
    the export path, which calls [Math.sin] and [Math.cos].  Rounding of
    IEEE doubles is not modelled, and a division by zero gives 0 where
    JavaScript gives [Infinity] or [NaN].  A canvas keeps the number
    assigned to its width or height as it is; what the browser makes of
    it is [pixelSize], and the properties that depend on the difference
    say so.

    The browser.  A canvas is modelled by what the code asks of it: its
    size, the filter and transform of its 2D context, and the list of
    [drawImage] calls, each recorded with the filter and transform in
    force when it was issued.  A data URL is modelled by where its
    pixels come from: an uploaded file, or a canvas. *)

From Stdlib Require Import ZArith QArith Qabs Qminmax Qround Qreals Lqa.
From Stdlib Require Import Reals Lra Lia Bool List String Ascii DecimalString.
Import ListNotations.

Local Open Scope string_scope.
Local Open Scope list_scope.
Local Open Scope Q_scope.

(** ** The 2D canvas, as a log of the calls made on it *)

Section Canvas2D.

Variables num pic : Type.

Inductive Xform : Type :=
| Translate (tx ty : num)
| Rotate (angle : num)
| Scale (sx sy : num).

(** The three arities of [ctx.drawImage]. *)
Inductive DrawArgs : Type :=
| DrawAt (dx dy : num)
| DrawInto (dx dy dw dh : num)
| DrawFrom (sx sy sw sh dx dy dw dh : num).

Record DrawCall : Type := mkDrawCall {
  src : pic;
  args : DrawArgs;
  drawn_filter : string;
  drawn_transform : list Xform
}.

Record Canvas : Type := mkCanvas {
  cwidth : num;
  cheight : num;
  ctx_filter : string;
  ctx_transform : list Xform;
  drawn : list DrawCall
}.

(** [document.createElement("canvas")] followed by the assignments to
    [canvas.width] and [canvas.height]: a blank canvas whose context
    has the default filter ["none"] and the identity transform. *)
Definition createCanvas (w h : num) : Canvas :=
  mkCanvas w h "none" [] [].

Definition ctx_translate (tx ty : num) (c : Canvas) : Canvas :=
  mkCanvas (cwidth c) (cheight c) (ctx_filter c)
           (ctx_transform c ++ [Translate tx ty]) (drawn c).

Definition ctx_rotate (angle : num) (c : Canvas) : Canvas :=
  mkCanvas (cwidth c) (cheight c) (ctx_filter c)
           (ctx_transform c ++ [Rotate angle]) (drawn c).

Definition ctx_scale (sx sy : num) (c : Canvas) : Canvas :=
  mkCanvas (cwidth c) (cheight c) (ctx_filter c)
           (ctx_transform c ++ [Scale sx sy]) (drawn c).

Definition ctx_set_filter (f : string) (c : Canvas) : Canvas :=
  mkCanvas (cwidth c) (cheight c) f (ctx_transform c) (drawn c).

Definition ctx_drawImage (img : pic) (a : DrawArgs) (c : Canvas) : Canvas :=
  mkCanvas (cwidth c) (cheight c) (ctx_filter c) (ctx_transform c)
           (drawn c ++ [mkDrawCall img a (ctx_filter c) (ctx_transform c)]).

End Canvas2D.

Arguments Translate {num} tx ty.
Arguments Rotate {num} angle.
Arguments Scale {num} sx sy.
Arguments DrawAt {num} dx dy.
Arguments DrawInto {num} dx dy dw dh.
Arguments DrawFrom {num} sx sy sw sh dx dy dw dh.
Arguments mkDrawCall {num pic} src args drawn_filter drawn_transform.
Arguments src {num pic} d.
Arguments args {num pic} d.
Arguments drawn_filter {num pic} d.
Arguments drawn_transform {num pic} d.
Arguments mkCanvas {num pic} cwidth cheight ctx_filter ctx_transform drawn.
Arguments cwidth {num pic} c.
Arguments cheight {num pic} c.
Arguments ctx_filter {num pic} c.
Arguments ctx_transform {num pic} c.
Arguments drawn {num pic} c.
Arguments createCanvas {num pic} w h.
Arguments ctx_translate {num pic} tx ty c.
Arguments ctx_rotate {num pic} angle c.
Arguments ctx_scale {num pic} sx sy c.
Arguments ctx_set_filter {num pic} f c.
Arguments ctx_drawImage {num pic} img a c.

(** ** Images *)

(** A file handed over by the file picker or by a drop: its MIME type,
    its bytes, and the size the browser finds when it decodes them. *)
Record File : Type := mkFile {
  file_type : string;
  file_data : string;
  file_width : Z;
  file_height : Z
}.

(** The value of [image]: a data URL, known by the origin of its pixels. *)
#[local] Set Warnings "-register-all".
Inductive Picture : Type :=
| FileData (f : File)
| CanvasData (mime : string) (c : Canvas Q Picture).

(** [canvas.toDataURL("image/png")]. *)
Definition toDataURL (mime : string) (c : Canvas Q Picture) : Picture :=
  CanvasData mime c.

(** [img.width] and [img.height] once the data URL is decoded. *)
Definition img_width (p : Picture) : Q :=
  match p with
  | FileData f => inject_Z (file_width f)
  | CanvasData _ c => cwidth c
  end.

Definition img_height (p : Picture) : Q :=
  match p with
  | FileData f => inject_Z (file_height f)
  | CanvasData _ c => cheight c
  end.

(** How many canvases a picture went through. *)
Fixpoint generation (p : Picture) : nat :=
  match p with
  | FileData _ => O
  | CanvasData _ c =>
      S ((fix oldest (l : list (DrawCall Q Picture)) : nat :=
            match l with
            | [] => O
            | d :: l' => Nat.max (generation (src d)) (oldest l')
            end) (drawn c))
  end.

(** ** The edit state *)

Record CropRegion : Type := mkCropRegion {
  x : Q;
  y : Q;
  width : Q;
  height : Q
}.

Record ImageState : Type := mkImageState {
  brightness : Z;
  contrast : Z;
  saturation : Z;
  rotation : Z;
  flipH : bool;
  flipV : bool;
  filter : string;
  crop : option CropRegion
}.

Definition defaultState : ImageState :=
  {| brightness := 100;
     contrast := 100;
     saturation := 100;
     rotation := 0;
     flipH := false;
     flipV := false;
     filter := "none";
     crop := None |}.

Record FilterPreset : Type := mkFilterPreset {
  name : string;
  value : string;
  css : string
}.

Definition filters : list FilterPreset :=
  [ mkFilterPreset "None" "none" "";
    mkFilterPreset "Grayscale" "grayscale" "grayscale(100%)";
    mkFilterPreset "Sepia" "sepia" "sepia(100%)";
    mkFilterPreset "Invert" "invert" "invert(100%)";
    mkFilterPreset "Blur" "blur" "blur(2px)";
    mkFilterPreset "Vintage" "vintage" "sepia(50%) contrast(90%) brightness(90%)";
    mkFilterPreset "Cool" "cool" "hue-rotate(180deg) saturate(80%)";
    mkFilterPreset "Warm" "warm" "sepia(30%) saturate(140%)" ].

(** [Partial<ImageState>]: the keys a caller of [updateState] supplies. *)
Record Patch : Type := mkPatch {
  p_brightness : option Z;
  p_contrast : option Z;
  p_saturation : option Z;
  p_rotation : option Z;
  p_flipH : option bool;
  p_flipV : option bool;
  p_filter : option string;
  p_crop : option (option CropRegion)
}.

Definition noPatch : Patch :=
  mkPatch None None None None None None None None.

Definition over {A : Type} (new : option A) (old : A) : A :=
  match new with
  | Some v => v
  | None => old
  end.

(** The object spread [{ ...imageState, ...newState }]. *)
Definition spread (st : ImageState) (p : Patch) : ImageState :=
  {| brightness := over (p_brightness p) (brightness st);
     contrast := over (p_contrast p) (contrast st);
     saturation := over (p_saturation p) (saturation st);
     rotation := over (p_rotation p) (rotation st);
     flipH := over (p_flipH p) (flipH st);
     flipV := over (p_flipV p) (flipV st);
     filter := over (p_filter p) (filter st);
     crop := over (p_crop p) (crop st) |}.

(** The patch that names every key. *)
Definition allOf (st : ImageState) : Patch :=
  mkPatch (Some (brightness st)) (Some (contrast st)) (Some (saturation st))
          (Some (rotation st)) (Some (flipH st)) (Some (flipV st))
          (Some (filter st)) (Some (crop st)).

(** ** The session: the component's [useState] cells *)

Record Point : Type := mkPoint {
  px : Q;
  py : Q
}.

Record Dimensions : Type := mkDimensions {
  dwidth : Q;
  dheight : Q
}.

Record Session : Type := mkSession {
  image : option Picture;
  originalImage : option Picture;
  imageState : ImageState;
  history : list ImageState;
  historyIndex : nat;
  isCropping : bool;
  cropStart : option Point;
  cropEnd : option Point;
  resizeWidth : Q;
  resizeHeight : Q;
  originalDimensions : Dimensions;
  maintainAspectRatio : bool
}.

(** The state the component mounts with. *)
Definition initialSession : Session :=
  {| image := None;
     originalImage := None;
     imageState := defaultState;
     history := [defaultState];
     historyIndex := 0;
     isCropping := false;
     cropStart := None;
     cropEnd := None;
     resizeWidth := 0;
     resizeHeight := 0;
     originalDimensions := mkDimensions 0 0;
     maintainAspectRatio := true |}.

(** The state setters. *)
Definition setImage (v : option Picture) (s : Session) : Session :=
  mkSession v (originalImage s) (imageState s) (history s) (historyIndex s)
     (isCropping s) (cropStart s) (cropEnd s) (resizeWidth s)
     (resizeHeight s) (originalDimensions s) (maintainAspectRatio s).

Definition setOriginalImage (v : option Picture) (s : Session) : Session :=
  mkSession (image s) v (imageState s) (history s) (historyIndex s)
     (isCropping s) (cropStart s) (cropEnd s) (resizeWidth s)
     (resizeHeight s) (originalDimensions s) (maintainAspectRatio s).

Definition setImageState (v : ImageState) (s : Session) : Session :=
  mkSession (image s) (originalImage s) v (history s) (historyIndex s)
     (isCropping s) (cropStart s) (cropEnd s) (resizeWidth s)
     (resizeHeight s) (originalDimensions s) (maintainAspectRatio s).

Definition setHistory (v : list ImageState) (s : Session) : Session :=
  mkSession (image s) (originalImage s) (imageState s) v (historyIndex s)
     (isCropping s) (cropStart s) (cropEnd s) (resizeWidth s)
     (resizeHeight s) (originalDimensions s) (maintainAspectRatio s).

Definition setHistoryIndex (v : nat) (s : Session) : Session :=
  mkSession (image s) (originalImage s) (imageState s) (history s) v
     (isCropping s) (cropStart s) (cropEnd s) (resizeWidth s)
     (resizeHeight s) (originalDimensions s) (maintainAspectRatio s).

Definition setIsCropping (v : bool) (s : Session) : Session :=
  mkSession (image s) (originalImage s) (imageState s) (history s)
     (historyIndex s) v (cropStart s) (cropEnd s) (resizeWidth s)
     (resizeHeight s) (originalDimensions s) (maintainAspectRatio s).

Definition setCropStart (v : option Point) (s : Session) : Session :=
  mkSession (image s) (originalImage s) (imageState s) (history s)
     (historyIndex s) (isCropping s) v (cropEnd s) (resizeWidth s)
     (resizeHeight s) (originalDimensions s) (maintainAspectRatio s).

Definition setCropEnd (v : option Point) (s : Session) : Session :=
  mkSession (image s) (originalImage s) (imageState s) (history s)
     (historyIndex s) (isCropping s) (cropStart s) v (resizeWidth s)
     (resizeHeight s) (originalDimensions s) (maintainAspectRatio s).

Definition setResizeWidth (v : Q) (s : Session) : Session :=
  mkSession (image s) (originalImage s) (imageState s) (history s)
     (historyIndex s) (isCropping s) (cropStart s) (cropEnd s) v
     (resizeHeight s) (originalDimensions s) (maintainAspectRatio s).

Definition setResizeHeight (v : Q) (s : Session) : Session :=
  mkSession (image s) (originalImage s) (imageState s) (history s)
     (historyIndex s) (isCropping s) (cropStart s) (cropEnd s)
     (resizeWidth s) v (originalDimensions s) (maintainAspectRatio s).

Definition setOriginalDimensions (v : Dimensions) (s : Session) : Session :=
  mkSession (image s) (originalImage s) (imageState s) (history s)
     (historyIndex s) (isCropping s) (cropStart s) (cropEnd s)
     (resizeWidth s) (resizeHeight s) v (maintainAspectRatio s).

Definition setMaintainAspectRatio (v : bool) (s : Session) : Session :=
  mkSession (image s) (originalImage s) (imageState s) (history s)
     (historyIndex s) (isCropping s) (cropStart s) (cropEnd s)
     (resizeWidth s) (resizeHeight s) (originalDimensions s) v.

(** A handler body is a run of setter calls; [s |> f |> g] applies them
    in the order the source lists them. *)
Notation "s |> f" := (f s) (at level 45, left associativity, only parsing).

(** ** History: [updateState], [undo], [redo] *)

(** [historyIndex] is a [nat]: the code only ever stores [0], a
    decrement guarded by [historyIndex > 0], an increment, or
    [newHistory.length - 1] of a non-empty array.  [history[i]] is
    [nth i history defaultState]; lemma [run_history_ok] below shows the
    index is in range in every state the handlers produce, so the
    default is never returned. *)

Definition updateState (newState : Patch) (s : Session) : Session :=
  let updatedState := spread (imageState s) newState in
  let newHistory := firstn (historyIndex s + 1)%nat (history s) ++ [updatedState] in
  s |> setImageState updatedState
    |> setHistory newHistory
    |> setHistoryIndex (List.length newHistory - 1)%nat.

Definition undo (s : Session) : Session :=
  if (0 <? historyIndex s)%nat then
    s |> setHistoryIndex (historyIndex s - 1)%nat
      |> setImageState (nth (historyIndex s - 1)%nat (history s) defaultState)
  else s.

Definition redo (s : Session) : Session :=
  if (historyIndex s <? List.length (history s) - 1)%nat then
    s |> setHistoryIndex (historyIndex s + 1)%nat
      |> setImageState (nth (historyIndex s + 1)%nat (history s) defaultState)
  else s.

(** ** Loading a file *)

(** What [reader.onload] and then [img.onload] do with the data URL of
    the file. *)
Definition fileLoaded (f : File) (s : Session) : Session :=
  let dataUrl := FileData f in
  s |> setImage (Some dataUrl)
    |> setOriginalImage (Some dataUrl)
    |> setImageState defaultState
    |> setHistory [defaultState]
    |> setHistoryIndex 0%nat
    |> setOriginalDimensions (mkDimensions (img_width dataUrl) (img_height dataUrl))
    |> setResizeWidth (img_width dataUrl)
    |> setResizeHeight (img_height dataUrl).

(** [file] is [e.target.files?.[0]]. *)
Definition handleFileUpload (file : option File) (s : Session) : Session :=
  match file with
  | Some f => fileLoaded f s
  | None => s
  end.

(** [file] is [e.dataTransfer.files[0]]. *)
Definition handleDrop (file : option File) (s : Session) : Session :=
  match file with
  | Some f => if prefix "image/" (file_type f) then fileLoaded f s else s
  | None => s
  end.

(** ** Preview styles *)

(** A template literal prints an integer in decimal. *)
Definition string_of_Z (z : Z) : string :=
  NilZero.string_of_int (Z.to_int z).

Definition getFilterCss (st : ImageState) : string :=
  let filter := find (fun f => String.eqb (value f) (filter st)) filters in
  let baseFilters :=
    ("brightness(" ++ string_of_Z (brightness st) ++ "%) contrast("
       ++ string_of_Z (contrast st) ++ "%) saturate("
       ++ string_of_Z (saturation st) ++ "%)")%string in
  match filter with
  | Some f =>
      if String.eqb (css f) "" then baseFilters
      else (baseFilters ++ " " ++ css f)%string
  | None => baseFilters
  end.

Definition getTransform (st : ImageState) : string :=
  let transform := ("rotate(" ++ string_of_Z (rotation st) ++ "deg)")%string in
  let transform :=
    if flipH st then (transform ++ " scaleX(-1)")%string else transform in
  let transform :=
    if flipV st then (transform ++ " scaleY(-1)")%string else transform in
  transform.

(** The [style] of the [<img>] element. *)
Record Style : Type := mkStyle {
  style_filter : string;
  style_transform : string
}.

Definition imgStyle (s : Session) : Style :=
  {| style_filter := getFilterCss (imageState s);
     style_transform := getTransform (imageState s) |}.

(** ** Cropping *)

(** [getBoundingClientRect()], the four fields the code reads. *)
Record DOMRect : Type := mkDOMRect {
  left : Q;
  top : Q;
  rwidth : Q;
  rheight : Q
}.

(** A mouse event on the image container: the pointer position and the
    bounding rectangle of [e.currentTarget]. *)
Record MouseEvent : Type := mkMouseEvent {
  clientX : Q;
  clientY : Q;
  currentTarget : DOMRect
}.

Definition handleCropMouseDown (e : MouseEvent) (s : Session) : Session :=
  if negb (isCropping s) then s
  else
    let rect := currentTarget e in
    let x := clientX e - left rect in
    let y := clientY e - top rect in
    s |> setCropStart (Some (mkPoint x y))
      |> setCropEnd (Some (mkPoint x y)).

Definition handleCropMouseMove (e : MouseEvent) (s : Session) : Session :=
  match isCropping s, cropStart s with
  | true, Some _ =>
      let rect := currentTarget e in
      let x := Qmax 0 (Qmin (clientX e - left rect) (rwidth rect)) in
      let y := Qmax 0 (Qmin (clientY e - top rect) (rheight rect)) in
      s |> setCropEnd (Some (mkPoint x y))
  | _, _ => s
  end.

Definition handleCropMouseUp (s : Session) : Session := s.

(** [rect] is what [getBoundingClientRect()] of the [<img>] element
    returns at the time of the call.  The element exists exactly when
    [image] is set, and a 2D context is always obtained.  The browser
    computes the rectangle from the layout and from the element's CSS
    transform, so it is the box of the image as turned on screen (see
    [quarterTurned]); the brightness, contrast, saturation and filter
    do not enter it. *)
Definition applyCrop (rect : DOMRect) (s : Session) : Session :=
  match cropStart s, cropEnd s, image s with
  | Some cs, Some ce, Some img =>
      let scaleX := dwidth (originalDimensions s) / rwidth rect in
      let scaleY := dheight (originalDimensions s) / rheight rect in
      let cropX := Qmin (px cs) (px ce) * scaleX in
      let cropY := Qmin (py cs) (py ce) * scaleY in
      let cropWidth := Qabs (px ce - px cs) * scaleX in
      let cropHeight := Qabs (py ce - py cs) * scaleY in
      let canvas := createCanvas cropWidth cropHeight in
      (* img.onload *)
      let canvas :=
        ctx_drawImage img
          (DrawFrom cropX cropY cropWidth cropHeight 0 0 cropWidth cropHeight)
          canvas in
      let croppedDataUrl := toDataURL "image/png" canvas in
      s |> setImage (Some croppedDataUrl)
        |> setOriginalImage (Some croppedDataUrl)
        |> setOriginalDimensions (mkDimensions cropWidth cropHeight)
        |> setResizeWidth cropWidth
        |> setResizeHeight cropHeight
        |> setIsCropping false
        |> setCropStart None
        |> setCropEnd None
  | _, _, _ => s
  end.

Definition cancelCrop (s : Session) : Session :=
  s |> setIsCropping false
    |> setCropStart None
    |> setCropEnd None.

(** ** Resizing *)

Definition handleResize (s : Session) : Session :=
  match image s with
  | None => s
  | Some img =>
      let canvas := createCanvas (resizeWidth s) (resizeHeight s) in
      (* img.onload *)
      let canvas :=
        ctx_drawImage img (DrawInto 0 0 (resizeWidth s) (resizeHeight s))
          canvas in
      let resizedDataUrl := toDataURL "image/png" canvas in
      s |> setImage (Some resizedDataUrl)
        |> setOriginalImage (Some resizedDataUrl)
        |> setOriginalDimensions
             (mkDimensions (resizeWidth s) (resizeHeight s))
  end.

(** The comparison [a < b] on numbers. *)
Definition Qlt_bool (a b : Q) : bool := negb (Qle_bool b a).

(** [Math.round]. *)
Definition round (q : Q) : Q := inject_Z (Qfloor (q + (1 # 2))).

(** [parsed] is the result of [parseInt(value)], [None] for [NaN]. *)
Definition handleWidthChange (parsed : option Z) (s : Session) : Session :=
  let newWidth := inject_Z (over parsed 0%Z) in
  let s1 := s |> setResizeWidth newWidth in
  if maintainAspectRatio s && Qlt_bool 0 (dwidth (originalDimensions s)) then
    let ratio := dheight (originalDimensions s) / dwidth (originalDimensions s) in
    s1 |> setResizeHeight (round (newWidth * ratio))
  else s1.

Definition handleHeightChange (parsed : option Z) (s : Session) : Session :=
  let newHeight := inject_Z (over parsed 0%Z) in
  let s1 := s |> setResizeHeight newHeight in
  if maintainAspectRatio s && Qlt_bool 0 (dheight (originalDimensions s)) then
    let ratio := dwidth (originalDimensions s) / dheight (originalDimensions s) in
    s1 |> setResizeWidth (round (newHeight * ratio))
  else s1.

(** ** Reset *)

Definition resetAll (s : Session) : Session :=
  match originalImage s with
  | Some original =>
      s |> setImage (Some original)
        |> setImageState defaultState
        |> setHistory [defaultState]
        |> setHistoryIndex 0%nat
  | None => s
  end.

(** ** Export *)

Inductive Format : Type := png | jpeg | webp.



(** The canvas of [exportImage] for edit state [st] and decoded image
    [img]: the body of its [img.onload] up to [drawImage]. *)
Definition exportCanvas (st : ImageState) (img : Picture) : Canvas R Picture :=
  let w := Q2R (img_width img) in
  let h := Q2R (img_height img) in
  let radians := (IZR (rotation st) * PI / 180)%R in
  let sin := Rabs (sin radians) in
  let cos := Rabs (cos radians) in
  let newWidth := (w * cos + h * sin)%R in
  let newHeight := (w * sin + h * cos)%R in
  let canvas := createCanvas newWidth newHeight in
  let canvas := ctx_translate (newWidth / 2)%R (newHeight / 2)%R canvas in
  let canvas := ctx_rotate radians canvas in
  let canvas := if flipH st then ctx_scale (-1)%R 1%R canvas else canvas in
  let canvas := if flipV st then ctx_scale 1%R (-1)%R canvas else canvas in
  let canvas := ctx_set_filter (getFilterCss st) canvas in
  ctx_drawImage img (DrawAt (- w / 2)%R (- h / 2)%R) canvas.


(** ** The user interface: which handler each control calls *)

Inductive Event : Type :=
| BrightnessSlider (v : Z)
| ContrastSlider (v : Z)
| SaturationSlider (v : Z)
| RotateLeft
| RotateRight
| FlipH
| FlipV
| FineRotation (v : Z)
| StartCropping
| CropMouseDown (e : MouseEvent)
| CropMouseMove (e : MouseEvent)
| CropMouseUp
| ApplyCrop (rect : DOMRect)
| CancelCrop
| FilterButton (preset : FilterPreset)
| WidthInput (parsed : option Z)
| HeightInput (parsed : option Z)
| AspectCheckbox (checked : bool)
| ApplyResize
| Undo
| Redo
| ResetAll
| ExportAs (format : Format)
| FileChosen (file : option File)
| FileDropped (file : option File).

(** The [onClick], [onChange], [onValueChange] and mouse attributes of
    the JSX.  The [disabled] attributes are left out, and a filter
    button may carry any preset, which only adds behaviours. *)
Definition handle (ev : Event) (s : Session) : Session :=
  match ev with
  | BrightnessSlider v =>
      updateState (mkPatch (Some v) None None None None None None None) s
  | ContrastSlider v =>
      updateState (mkPatch None (Some v) None None None None None None) s
  | SaturationSlider v =>
      updateState (mkPatch None None (Some v) None None None None None) s
  | RotateLeft =>
      updateState
        (mkPatch None None None (Some (rotation (imageState s) - 90)%Z)
                 None None None None) s
  | RotateRight =>
      updateState
        (mkPatch None None None (Some (rotation (imageState s) + 90)%Z)
                 None None None None) s
  | FlipH =>
      updateState
        (mkPatch None None None None (Some (negb (flipH (imageState s))))
                 None None None) s
  | FlipV =>
      updateState
        (mkPatch None None None None None
                 (Some (negb (flipV (imageState s)))) None None) s
  | FineRotation v =>
      updateState (mkPatch None None None (Some v) None None None None) s
  | StartCropping => setIsCropping true s
  | CropMouseDown e => handleCropMouseDown e s
  | CropMouseMove e => handleCropMouseMove e s
  | CropMouseUp => handleCropMouseUp s
  | ApplyCrop rect => applyCrop rect s
  | CancelCrop => cancelCrop s
  | FilterButton preset =>
      updateState
        (mkPatch None None None None None None (Some (value preset)) None) s
  | WidthInput parsed => handleWidthChange parsed s
  | HeightInput parsed => handleHeightChange parsed s
  | AspectCheckbox checked => setMaintainAspectRatio checked s
  | ApplyResize => handleResize s
  | Undo => undo s
  | Redo => redo s
  | ResetAll => resetAll s
  | ExportAs _ => s
  | FileChosen file => handleFileUpload file s
  | FileDropped file => handleDrop file s
  end.

(** A session: the events in order. *)
Definition run (evs : list Event) (s : Session) : Session :=
  fold_left (fun s ev => handle ev s) evs s.

(** ** What the JSX reads off the state *)

(** The rectangle of the crop overlay, in displayed pixels. *)
Record CropRect : Type := mkCropRect {
  rect_left : Q;
  rect_top : Q;
  rect_width : Q;
  rect_height : Q
}.

Definition getCropRect (s : Session) : option CropRect :=
  match cropStart s, cropEnd s with
  | Some cs, Some ce =>
      Some {| rect_left := Qmin (px cs) (px ce);
              rect_top := Qmin (py cs) (py ce);
              rect_width := Qabs (px ce - px cs);
              rect_height := Qabs (py ce - py cs) |}
  | _, _ => None
  end.

(** The overlay is rendered when [isCropping && cropStart && cropEnd]. *)
Definition overlayShown (s : Session) : bool :=
  match isCropping s, cropStart s, cropEnd s with
  | true, Some _, Some _ => true
  | _, _, _ => false
  end.

(** [disabled={historyIndex <= 0}] on the Undo button. *)
Definition undoDisabled (s : Session) : bool :=
  (historyIndex s <=? 0)%nat.

(** [disabled={historyIndex >= history.length - 1}] on the Redo button. *)
Definition redoDisabled (s : Session) : bool :=
  (List.length (history s) - 1 <=? historyIndex s)%nat.

(** * Vocabulary of the properties *)

(** ** The undo log *)

(** The cursor points into the history, at the current edit state. *)
Definition history_ok (s : Session) : Prop :=
  (historyIndex s < List.length (history s))%nat
  /\ nth (historyIndex s) (history s) defaultState = imageState s.

(** The cursor is on the last entry: nothing can be redone. *)
Definition at_tip (s : Session) : Prop :=
  historyIndex s = (List.length (history s) - 1)%nat.

Definition pushes (ps : list Patch) (s : Session) : Session :=
  fold_left (fun s p => updateState p s) ps s.

(** The three cells of the undo log. *)
Definition same_log (s s' : Session) : Prop :=
  imageState s' = imageState s
  /\ history s' = history s
  /\ historyIndex s' = historyIndex s.

(** The guard of [applyCrop] lets the commit through. *)
Definition crop_commits (s : Session) : bool :=
  match cropStart s, cropEnd s, image s with
  | Some _, Some _, Some _ => true
  | _, _, _ => false
  end.

(** The guard of [handleResize] lets the commit through. *)
Definition resize_commits (s : Session) : bool :=
  match image s with
  | Some _ => true
  | None => false
  end.

(** The undo log is the one a freshly loaded image has. *)
Definition log_is_reset (s : Session) : Prop :=
  imageState s = defaultState
  /\ history s = [defaultState]
  /\ historyIndex s = 0%nat.

(** [originalImage] is written wherever [image] is, with the same
    value. *)
Definition original_tracks_image (s : Session) : Prop :=
  originalImage s = image s.

(** No edit state of the session holds a crop region. *)
Definition no_crop (s : Session) : Prop :=
  crop (imageState s) = None
  /\ Forall (fun st => crop st = None) (history s).

(** The edit state [st] with its crop field replaced. *)
Definition withCrop (c : option CropRegion) (st : ImageState) : ImageState :=
  spread st (mkPatch None None None None None None None (Some c)).

(** ** What a picture holds *)

(** [p] is the image [img] as the edit state [st] renders it: one
    canvas, [img] drawn on it under the filter expression of [st] and,
    when [st] rotates or mirrors, under a transform. *)
Definition rendering_of (st : ImageState) (img p : Picture) : Prop :=
  exists mime c d,
    p = CanvasData mime c
    /\ drawn c = [d]
    /\ src d = img
    /\ drawn_filter d = getFilterCss st
    /\ (rotation st <> 0%Z \/ flipH st = true \/ flipV st = true ->
        drawn_transform d <> []).

(** Following the spec: [p] holds a rectangle of the rendered image,
    either drawn under the edit state directly or copied out of a
    rendering. *)
Definition crop_of_rendered (st : ImageState) (img p : Picture) : Prop :=
  rendering_of st img p
  \/ exists mime c d,
       p = CanvasData mime c /\ drawn c = [d] /\ rendering_of st img (src d).

(** [p] holds the rectangle [sx, sy, sw, sh] of the pixels of [img]
    themselves, copied at scale one with no filter and no transform. *)
Definition raw_rectangle (img : Picture) (sx sy sw sh : Q) (p : Picture) : Prop :=
  p = CanvasData "image/png"
        (mkCanvas sw sh "none" []
           [mkDrawCall img (DrawFrom sx sy sw sh 0 0 sw sh) "none" []]).

(** ** Filters and transforms, read back *)

(** The three slider functions, in the order the filter expression
    lists them. *)
Definition slider_filters (st : ImageState) : string :=
  ("brightness(" ++ string_of_Z (brightness st) ++ "%) contrast("
     ++ string_of_Z (contrast st) ++ "%) saturate("
     ++ string_of_Z (saturation st) ++ "%)")%string.

(** The transform functions [getTransform] writes, before printing. *)
Inductive CssTransform : Type :=
| css_rotate (deg : Z)
| css_scaleX (k : Z)
| css_scaleY (k : Z).

Definition css_text (t : CssTransform) : string :=
  match t with
  | css_rotate deg => "rotate(" ++ string_of_Z deg ++ "deg)"
  | css_scaleX k => "scaleX(" ++ string_of_Z k ++ ")"
  | css_scaleY k => "scaleY(" ++ string_of_Z k ++ ")"
  end%string.

Definition previewTransform (st : ImageState) : list CssTransform :=
  [css_rotate (rotation st)]
    ++ (if flipH st then [css_scaleX (-1)] else [])
    ++ (if flipV st then [css_scaleY (-1)] else []).

Local Open Scope R_scope.

(** An affine map of the plane, [x' = a x + c y + e] and
    [y' = b x + d y + f], as in [matrix(a, b, c, d, e, f)]. *)
Record Affine : Type := mkAffine {
  ma : R;
  mb : R;
  mc : R;
  md : R;
  me : R;
  mf : R
}.

Definition identity : Affine := mkAffine 1 0 0 1 0 0.

(** [compose m n] applies [n] first, then [m]. *)
Definition compose (m n : Affine) : Affine :=
  {| ma := ma m * ma n + mc m * mb n;
     mb := mb m * ma n + md m * mb n;
     mc := ma m * mc n + mc m * md n;
     md := mb m * mc n + md m * md n;
     me := ma m * me n + mc m * mf n + me m;
     mf := mb m * me n + md m * mf n + mf m |}.

Definition rotation_by (angle : R) : Affine :=
  mkAffine (cos angle) (sin angle) (- sin angle) (cos angle) 0 0.

(** The matrix of one canvas call, and the current transformation
    matrix after a list of calls: each call multiplies on the right. *)
Definition xform_matrix (t : Xform R) : Affine :=
  match t with
  | Translate tx ty => mkAffine 1 0 0 1 tx ty
  | Rotate angle => rotation_by angle
  | Scale sx sy => mkAffine sx 0 0 sy 0 0
  end.

Definition ctm (l : list (Xform R)) : Affine :=
  fold_left (fun m t => compose m (xform_matrix t)) l identity.

(** The matrix of one CSS transform function, angles in degrees, and of
    a transform list: the functions multiply from left to right. *)
Definition css_matrix (t : CssTransform) : Affine :=
  match t with
  | css_rotate deg => rotation_by (IZR deg * PI / 180)
  | css_scaleX k => mkAffine (IZR k) 0 0 1 0 0
  | css_scaleY k => mkAffine 1 0 0 (IZR k) 0 0
  end.

Definition css_transform_matrix (l : list CssTransform) : Affine :=
  fold_left (fun m t => compose m (css_matrix t)) l identity.

Local Close Scope R_scope.

(** ** Filter expressions, function by function *)

(** The filter functions the component writes: [name(p%)], [blur(r px)]
    and [hue-rotate(d deg)]. *)
Inductive FilterFn : Type :=
| fn_percent (fname : string) (pct : Z)
| fn_blur (radius : Z)
| fn_hue_rotate (deg : Z).

Definition fn_text (fn : FilterFn) : string :=
  match fn with
  | fn_percent fname pct => fname ++ "(" ++ string_of_Z pct ++ "%)"
  | fn_blur radius => "blur(" ++ string_of_Z radius ++ "px)"
  | fn_hue_rotate deg => "hue-rotate(" ++ string_of_Z deg ++ "deg)"
  end%string.

(** The [css] of each preset of [filters], function by function. *)
Definition presetFunctions (preset : FilterPreset) : list FilterFn :=
  if String.eqb (value preset) "grayscale" then [fn_percent "grayscale" 100]
  else if String.eqb (value preset) "sepia" then [fn_percent "sepia" 100]
  else if String.eqb (value preset) "invert" then [fn_percent "invert" 100]
  else if String.eqb (value preset) "blur" then [fn_blur 2]
  else if String.eqb (value preset) "vintage" then
    [fn_percent "sepia" 50; fn_percent "contrast" 90; fn_percent "brightness" 90]
  else if String.eqb (value preset) "cool" then
    [fn_hue_rotate 180; fn_percent "saturate" 80]
  else if String.eqb (value preset) "warm" then
    [fn_percent "sepia" 30; fn_percent "saturate" 140]
  else [].






(** ** Sizes the browser keeps *)


Local Open Scope R_scope.

(** The integer part towards zero. *)
Definition truncate (x : R) : Z :=
  if Rle_dec 0 x then Int_part x else (- Int_part (- x))%Z.

(** The size a canvas has after [canvas.width = x] or
    [canvas.height = x]: the attribute is an unsigned long, so the
    number is truncated and taken modulo 2^32, and above 2^31 - 1 the
    default size (300 for the width, 150 for the height) is used. *)
Definition pixelSize (default : Z) (x : R) : Z :=
  let n := (truncate x mod 4294967296)%Z in
  if (n <=? 2147483647)%Z then n else default.

Local Close Scope R_scope.

(** ** Worked sessions *)

(** A 200 x 100 upload shown at half size, 50 pixels from the left of
    the viewport and 20 from its top. *)
Definition photo : File := mkFile "image/png" "photo" 200 100.

Definition shown : DOMRect := mkDOMRect 50 20 100 50.

Definition press : MouseEvent := mkMouseEvent 60 30 shown.

Definition drag : MouseEvent := mkMouseEvent 110 60 shown.

(** Adjust, rotate and mirror the upload, then select a rectangle. *)
Definition edited_then_selected : Session :=
  run [ FileChosen (Some photo);
        BrightnessSlider 150;
        FilterButton (mkFilterPreset "Invert" "invert" "invert(100%)");
        RotateRight;
        FlipH;
        StartCropping;
        CropMouseDown press;
        CropMouseMove drag ]
      initialSession.

(** The same, with the selection left out and a new width typed in. *)
Definition edited_then_sized : Session :=
  run [ FileChosen (Some photo);
        BrightnessSlider 150;
        WidthInput (Some 50%Z) ]
      initialSession.

(** Upload, crop. *)
Definition uploaded_then_cropped : Session :=
  run [ FileChosen (Some photo);
        StartCropping;
        CropMouseDown press;
        CropMouseMove drag;
        ApplyCrop shown ]
      initialSession.

(** Upload, start cropping, click once without dragging. *)
Definition clicked_without_drag : Session :=
  run [ FileChosen (Some photo);
        StartCropping;
        CropMouseDown press ]
      initialSession.

(** The bounding rectangle of a box turned by a quarter about its
    centre: what the browser reports for the [<img>] element when its
    layout box is [r] and its style is [rotate(90deg)]. *)
Definition quarterTurned (r : DOMRect) : DOMRect :=
  mkDOMRect (left r + rwidth r / 2 - rheight r / 2)
            (top r + rheight r / 2 - rwidth r / 2)
            (rheight r) (rwidth r).

(** The 200 x 100 upload shown at its own size, 400 pixels from the
    left of the viewport and 300 from its top: the rectangle of the
    container, and of the image while it is not turned. *)
Definition full_size : DOMRect := mkDOMRect 400 300 200 100.

(** A press on the image turned by a quarter, on the part of it that
    stands out above the container, and a move back inside. *)
Definition press_on_overhang : MouseEvent := mkMouseEvent 500 270 full_size.

Definition drag_back_inside : MouseEvent := mkMouseEvent 520 330 full_size.

Definition turned_then_pressed_on_overhang : Session :=
  run [ FileChosen (Some photo);
        RotateRight;
        StartCropping;
        CropMouseDown press_on_overhang;
        CropMouseMove drag_back_inside ]
      initialSession.


(** Adjust the colours of the upload, leave it unturned, and select a
    rectangle. *)
Definition adjusted_then_selected : Session :=
  run [ FileChosen (Some photo);
        BrightnessSlider 150;
        FilterButton (mkFilterPreset "Invert" "invert" "invert(100%)");
        StartCropping;
        CropMouseDown press;
        CropMouseMove drag ]
      initialSession.

(** The edit state [st] with brightness, contrast, saturation and
    filter replaced. *)
Definition withColours (b c sa : Z) (f : string) (st : ImageState) : ImageState :=
  spread st (mkPatch (Some b) (Some c) (Some sa) None None None (Some f) None).

(** ** Further vocabulary *)

(** [n] presses of the same control. *)
Definition presses (n : nat) (ev : Event) (s : Session) : Session :=
  Nat.iter n (handle ev) s.

(** The first entry of the history is the default state. *)
Definition starts_at_default (s : Session) : Prop :=
  nth 0 (history s) defaultState = defaultState.

(** The two selection points come and go together, and only in crop
    mode. *)
Definition selection_ok (s : Session) : Prop :=
  (cropStart s = None /\ cropEnd s = None)
  \/ (exists cs ce,
         cropStart s = Some cs /\ cropEnd s = Some ce
         /\ isCropping s = true).

(** A session with the selection set to the two points. *)
Definition withSelection (cs ce : Point) (s : Session) : Session :=
  s |> setCropStart (Some cs) |> setCropEnd (Some ce).

(** What a load keeps of the session before it. *)
Definition keptByLoad (s : Session) : Session :=
  initialSession
    |> setIsCropping (isCropping s)
    |> setCropStart (cropStart s)
    |> setCropEnd (cropEnd s)
    |> setMaintainAspectRatio (maintainAspectRatio s).

(** The events that call [updateState]. *)
Definition isEdit (ev : Event) : bool :=
  match ev with
  | BrightnessSlider _ | ContrastSlider _ | SaturationSlider _
  | RotateLeft | RotateRight | FlipH | FlipV | FineRotation _
  | FilterButton _ => true
  | _ => false
  end.

Definition edits (evs : list Event) : nat :=
  List.length (List.filter isEdit evs).

(** The edit state [st] with its rotation replaced. *)
Definition withRotation (r : Z) (st : ImageState) : ImageState :=
  spread st (mkPatch None None None (Some r) None None None None).

Local Open Scope R_scope.

(** The image of the point [(x, y)] under an affine map. *)
Definition apply_affine (m : Affine) (x y : R) : R * R :=
  (ma m * x + mc m * y + me m, mb m * x + md m * y + mf m).

Local Close Scope R_scope.

(** * Properties *)

(** ** History *)

Lemma spread_allOf (st new : ImageState) : spread st (allOf new) = new.
Proof. destruct new; reflexivity. Qed.

Lemma updateState_history (p : Patch) (s : Session) :
  history (updateState p s)
  = firstn (historyIndex s + 1) (history s) ++ [spread (imageState s) p].
Proof. reflexivity. Qed.

Lemma updateState_index (p : Patch) (s : Session) :
  historyIndex (updateState p s)
  = List.length (firstn (historyIndex s + 1) (history s)).
Proof.
  unfold updateState; cbn.
  rewrite length_app; cbn. lia.
Qed.

Lemma updateState_ok (p : Patch) (s : Session) : history_ok (updateState p s).
Proof.
  split.
  - rewrite updateState_index, updateState_history, length_app; cbn. lia.
  - rewrite updateState_index, updateState_history.
    rewrite app_nth2 by lia.
    rewrite Nat.sub_diag. reflexivity.
Qed.

Lemma updateState_tip (p : Patch) (s : Session) : at_tip (updateState p s).
Proof.
  unfold at_tip.
  rewrite updateState_index, updateState_history, length_app; cbn. lia.
Qed.

Lemma undo_ok (s : Session) : history_ok s -> history_ok (undo s).
Proof.
  intros [Hlt Hnth]. unfold undo.
  destruct (Nat.ltb_spec 0 (historyIndex s)) as [Hpos | Hzero].
  - split; cbn; [lia | reflexivity].
  - split; assumption.
Qed.

Lemma redo_ok (s : Session) : history_ok s -> history_ok (redo s).
Proof.
  intros [Hlt Hnth]. unfold redo.
  destruct (Nat.ltb_spec (historyIndex s) (List.length (history s) - 1))
    as [Hmore | Hlast].
  - split; cbn; [lia | reflexivity].
  - split; assumption.
Qed.

Lemma redo_at_tip (s : Session) : at_tip s -> redo s = s.
Proof.
  unfold at_tip, redo. intros ->.
  rewrite Nat.ltb_irrefl. reflexivity.
Qed.

(** Undo followed by redo, from a state where undo can move. *)
Lemma redo_undo (s : Session) :
  history_ok s -> (0 < historyIndex s)%nat -> redo (undo s) = s.
Proof.
  intros [Hlt Hnth] Hpos. unfold undo.
  destruct (Nat.ltb_spec 0 (historyIndex s)) as [_ | Hzero]; [ | lia ].
  unfold redo; cbn [setImageState setHistoryIndex historyIndex history].
  destruct (Nat.ltb_spec (historyIndex s - 1) (List.length (history s) - 1))
    as [_ | Hge]; [ | lia ].
  replace (historyIndex s - 1 + 1)%nat with (historyIndex s) by lia.
  rewrite Hnth. destruct s; reflexivity.
Qed.

Lemma redo_undo_at_tip (s : Session) :
  history_ok s -> at_tip s -> redo (undo s) = s.
Proof.
  intros Hok Htip.
  destruct (Nat.eq_dec (historyIndex s) 0) as [Hzero | Hpos].
  - unfold undo. rewrite Hzero. now apply redo_at_tip.
  - apply redo_undo; [assumption | lia].
Qed.

Lemma pushes_ok_tip (ps : list Patch) (s : Session) :
  history_ok s -> at_tip s ->
  history_ok (pushes ps s) /\ at_tip (pushes ps s).
Proof.
  revert s. induction ps as [ | p ps IH]; intros s Hok Htip.
  - split; assumption.
  - cbn. apply IH; [apply updateState_ok | apply updateState_tip].
Qed.

Lemma fileLoaded_ok (f : File) (s : Session) :
  history_ok (fileLoaded f s) /\ at_tip (fileLoaded f s).
Proof. repeat split; cbn; lia. Qed.

Lemma initialSession_ok : history_ok initialSession /\ at_tip initialSession.
Proof. repeat split; cbn; lia. Qed.

(** ** What the other handlers leave alone *)

Lemma applyCrop_same_log (rect : DOMRect) (s : Session) :
  same_log s (applyCrop rect s).
Proof.
  unfold applyCrop.
  destruct (cropStart s), (cropEnd s), (image s); repeat split.
Qed.

Lemma handleResize_same_log (s : Session) : same_log s (handleResize s).
Proof. unfold handleResize. destruct (image s); repeat split. Qed.

Lemma handleCropMouseDown_same_log (e : MouseEvent) (s : Session) :
  same_log s (handleCropMouseDown e s).
Proof. unfold handleCropMouseDown. destruct (isCropping s); repeat split. Qed.

Lemma handleCropMouseMove_same_log (e : MouseEvent) (s : Session) :
  same_log s (handleCropMouseMove e s).
Proof.
  unfold handleCropMouseMove.
  destruct (isCropping s), (cropStart s); repeat split.
Qed.

Lemma handleWidthChange_same_log (parsed : option Z) (s : Session) :
  same_log s (handleWidthChange parsed s).
Proof.
  unfold handleWidthChange.
  destruct (maintainAspectRatio s && _)%bool; repeat split.
Qed.

Lemma handleHeightChange_same_log (parsed : option Z) (s : Session) :
  same_log s (handleHeightChange parsed s).
Proof.
  unfold handleHeightChange.
  destruct (maintainAspectRatio s && _)%bool; repeat split.
Qed.

Lemma same_log_ok (s s' : Session) :
  same_log s s' -> history_ok s -> history_ok s'.
Proof.
  unfold history_ok. intros (-> & -> & ->). trivial.
Qed.

Lemma resetAll_ok (s : Session) : history_ok s -> history_ok (resetAll s).
Proof.
  unfold resetAll. destruct (originalImage s); [ | trivial ].
  intros _. split; cbn; [lia | reflexivity].
Qed.

Lemma handle_ok (ev : Event) (s : Session) :
  history_ok s -> history_ok (handle ev s).
Proof.
  intros Hok.
  destruct ev; cbn [handle];
    try apply updateState_ok;
    try (now apply undo_ok); try (now apply redo_ok);
    try (now apply resetAll_ok);
    try exact Hok.
  - eapply same_log_ok; [apply handleCropMouseDown_same_log | exact Hok].
  - eapply same_log_ok; [apply handleCropMouseMove_same_log | exact Hok].
  - eapply same_log_ok; [apply applyCrop_same_log | exact Hok].
  - eapply same_log_ok; [apply handleWidthChange_same_log | exact Hok].
  - eapply same_log_ok; [apply handleHeightChange_same_log | exact Hok].
  - eapply same_log_ok; [apply handleResize_same_log | exact Hok].
  - destruct file as [f | ]; [apply fileLoaded_ok | exact Hok].
  - destruct file as [f | ]; cbn; [ | exact Hok].
    destruct (prefix _ _); [apply fileLoaded_ok | exact Hok].
Qed.

(** An invariant of the handlers holds in every session. *)
Lemma run_invariant (P : Session -> Prop) :
  (forall ev s, P s -> P (handle ev s)) ->
  forall evs s, P s -> P (run evs s).
Proof.
  intros Hstep evs. induction evs as [ | ev evs IH]; intros s Hs.
  - exact Hs.
  - cbn. apply IH, Hstep, Hs.
Qed.

Lemma run_history_ok (evs : list Event) : history_ok (run evs initialSession).
Proof.
  apply run_invariant; [exact handle_ok | apply initialSession_ok].
Qed.

Lemma run_app (evs evs' : list Event) (s : Session) :
  run (evs ++ evs') s = run evs' (run evs s).
Proof. apply fold_left_app. Qed.

(** ** Claims on the undo log *)

(** C2.  A push keeps the entries up to the cursor, drops the ones after
    it, appends the new state and moves the cursor to the new last
    index.  On the history [[s0; s1; s2]] with the cursor at 2, two
    undos bring the cursor to 0 and the state to [s0]; pushing [s3]
    then leaves the history [[s0; s3]] with the cursor at 1, and redo
    changes nothing. *)
Theorem push_truncates_then_appends :
  (forall (p : Patch) (s : Session),
      let s' := updateState p s in
      history s'
      = firstn (historyIndex s + 1) (history s) ++ [spread (imageState s) p]
      /\ historyIndex s' = (List.length (history s') - 1)%nat
      /\ imageState s' = last (history s') defaultState)
  /\ (forall (s0 s1 s2 s3 : ImageState) (s : Session),
         let start :=
           s |> setHistory [s0; s1; s2] |> setHistoryIndex 2%nat
             |> setImageState s2 in
         let undone := undo (undo start) in
         let pushed := updateState (allOf s3) undone in
         historyIndex undone = 0%nat
         /\ imageState undone = s0
         /\ history undone = [s0; s1; s2]
         /\ history pushed = [s0; s3]
         /\ historyIndex pushed = 1%nat
         /\ imageState pushed = s3
         /\ redo pushed = pushed).
Proof.
  split.
  - intros p s s'. subst s'. split; [ | split].
    + apply updateState_history.
    + apply updateState_tip.
    + rewrite updateState_history, last_last. reflexivity.
  - intros s0 s1 s2 s3 s start undone pushed.
    assert (Hpushed : history pushed = [s0; s3]).
    { subst pushed. rewrite updateState_history. cbn.
      now rewrite spread_allOf. }
    split; [reflexivity | ].
    split; [reflexivity | ].
    split; [reflexivity | ].
    split; [exact Hpushed | ].
    split; [reflexivity | ].
    split.
    + subst pushed. cbn. apply spread_allOf.
    + apply redo_at_tip, updateState_tip.
Qed.

(** C3.  After any sequence of pushes on a freshly loaded image, on the
    component as mounted, or after at least one push on any session,
    undo followed by redo gives back the edit state that was current
    before the undo, and the session as a whole. *)
Theorem undo_then_redo_restores :
  forall (ps : list Patch),
    (forall (f : File) (before : Session),
        let s := pushes ps (fileLoaded f before) in
        imageState (redo (undo s)) = imageState s /\ redo (undo s) = s)
    /\ (let s := pushes ps initialSession in
        imageState (redo (undo s)) = imageState s /\ redo (undo s) = s)
    /\ (forall (p : Patch) (before : Session),
           let s := pushes ps (updateState p before) in
           imageState (redo (undo s)) = imageState s /\ redo (undo s) = s).
Proof.
  intros ps.
  assert (Hround : forall s0, history_ok s0 /\ at_tip s0 ->
            redo (undo (pushes ps s0)) = pushes ps s0).
  { intros s0 [Hok Htip].
    destruct (pushes_ok_tip ps s0 Hok Htip) as [Hok' Htip'].
    now apply redo_undo_at_tip. }
  split; [ | split].
  - intros f before s.
    assert (H : redo (undo s) = s) by apply Hround, fileLoaded_ok.
    split; [now rewrite H | exact H].
  - intros s.
    assert (H : redo (undo s) = s) by apply Hround, initialSession_ok.
    split; [now rewrite H | exact H].
  - intros p before s.
    assert (H : redo (undo s) = s).
    { apply Hround. split; [apply updateState_ok | apply updateState_tip]. }
    split; [now rewrite H | exact H].
Qed.

(** ** Crop and resize commits *)

(** A canvas that was drawn on is a new picture. *)
Lemma drawn_canvas_is_new (mime : string) (img : Picture)
      (a : DrawArgs Q) (w h : Q) :
  toDataURL mime (ctx_drawImage img a (createCanvas w h)) <> img.
Proof.
  intros H. apply (f_equal generation) in H. cbn in H. lia.
Qed.

(** C1, as stated, fails: the crop and the resize of an adjusted image
    are committed, and the edit state and the history are not the
    default ones afterwards. *)
Lemma commit_does_not_reset_log :
  (crop_commits edited_then_selected = true
   /\ ~ log_is_reset (applyCrop shown edited_then_selected))
  /\ (resize_commits edited_then_sized = true
      /\ ~ log_is_reset (handleResize edited_then_sized)).
Proof.
  split; (split; [reflexivity | ]); intros (Hstate & _);
    apply (f_equal brightness) in Hstate; vm_compute in Hstate;
    discriminate Hstate.
Qed.

(** C1, amended.  A committed crop and a committed resize install, as
    [image] and as [originalImage], the PNG of a fresh canvas on which
    the previous image was drawn once; that picture differs from the
    previous one; the edit state, the history and the cursor are left
    as they were. *)
Theorem commit_replaces_image_keeps_log :
  (forall (rect : DOMRect) (s : Session),
      crop_commits s = true ->
      let s' := applyCrop rect s in
      (exists img c,
          image s = Some img
          /\ image s' = Some (CanvasData "image/png" c)
          /\ map src (drawn c) = [img])
      /\ image s' <> image s
      /\ originalImage s' = image s'
      /\ same_log s s')
  /\ (forall (s : Session),
         resize_commits s = true ->
         let s' := handleResize s in
         (exists img c,
             image s = Some img
             /\ image s' = Some (CanvasData "image/png" c)
             /\ map src (drawn c) = [img])
         /\ image s' <> image s
         /\ originalImage s' = image s'
         /\ same_log s s').
Proof.
  split.
  - intros rect s Hcommit s'.
    assert (Hlog : same_log s s') by apply applyCrop_same_log.
    subst s'. unfold crop_commits in Hcommit. unfold applyCrop in *.
    destruct (cropStart s) as [cs | ]; [ | discriminate].
    destruct (cropEnd s) as [ce | ]; [ | discriminate].
    destruct (image s) as [img | ]; [ | discriminate].
    split; [ | split; [ | split]].
    + eexists. eexists. repeat split.
    + cbn. intros H. injection H as H.
      exact (drawn_canvas_is_new _ _ _ _ _ H).
    + reflexivity.
    + exact Hlog.
  - intros s Hcommit s'.
    assert (Hlog : same_log s s') by apply handleResize_same_log.
    subst s'. unfold resize_commits in Hcommit. unfold handleResize in *.
    destruct (image s) as [img | ]; [ | discriminate].
    split; [ | split; [ | split]].
    + eexists. eexists. repeat split.
    + cbn. intros H. injection H as H.
      exact (drawn_canvas_is_new _ _ _ _ _ H).
    + reflexivity.
    + exact Hlog.
Qed.

Lemma commit_replaces_image_keeps_log_witness :
  crop_commits edited_then_selected = true
  /\ resize_commits edited_then_sized = true
  /\ same_log edited_then_selected (applyCrop shown edited_then_selected)
  /\ same_log edited_then_sized (handleResize edited_then_sized).
Proof.
  split; [reflexivity | ].
  split; [reflexivity | ].
  split.
  - apply (proj1 commit_replaces_image_keeps_log shown edited_then_selected).
    reflexivity.
  - apply (proj2 commit_replaces_image_keeps_log edited_then_sized).
    reflexivity.
Defined.

(** ** What a crop rasterizes *)

(** C4, as stated, fails: with brightness 150 and the invert filter
    active on an unturned image, the committed crop of the upload is
    not a rectangle of the rendered image; it is the rectangle at
    (20, 20) of size 100 x 60 of the uploaded pixels, copied without
    any filter. *)
Lemma crop_takes_raw_pixels :
  let s := adjusted_then_selected in
  let s' := applyCrop shown s in
  exists p,
    image s = Some (FileData photo)
    /\ getFilterCss (imageState s)
       = "brightness(150%) contrast(100%) saturate(100%) invert(100%)"
    /\ image s' = Some p
    /\ ~ crop_of_rendered (imageState s) (FileData photo) p
    /\ exists sx sy sw sh,
         raw_rectangle (FileData photo) sx sy sw sh p
         /\ sx == 20 /\ sy == 20 /\ sw == 100 /\ sh == 60.
Proof.
  cbv zeta. eexists. split; [vm_compute; reflexivity | ].
  split; [vm_compute; reflexivity | ].
  split; [vm_compute; reflexivity | ].
  split.
  - intros [Hdirect | Hcopy].
    + destruct Hdirect as (mime & c & d & Hp & Hdrawn & _ & Hfilter & _).
      injection Hp as _ <-. cbn in Hdrawn. injection Hdrawn as <-.
      vm_compute in Hfilter. discriminate Hfilter.
    + destruct Hcopy as (mime & c & d & Hp & Hdrawn & Hsrc).
      injection Hp as _ <-. cbn in Hdrawn. injection Hdrawn as <-.
      destruct Hsrc as (mime' & c' & d' & Hsrc & _).
      discriminate Hsrc.
  - do 4 eexists. split; [reflexivity | ].
    repeat split; vm_compute; reflexivity.
Qed.

(** C4, amended.  For a crop committed on an image that is neither
    rotated nor flipped, with a selection whose mapped rectangle has a
    positive width and height, the picture installed holds the selected
    rectangle of the pixels of the current [image] itself: the
    rectangle spanned by the two selection points, scaled from the
    displayed to the stored size, copied at scale one with no filter
    and no transform.  Brightness, contrast, saturation and filter are
    not applied to it: whatever these four are, the same picture is
    installed, the displayed rectangle of an unturned image being the
    same for all of them.  The edit state stays in force afterwards. *)
Theorem crop_installs_raw_rectangle :
  forall (rect : DOMRect) (s : Session) (cs ce : Point) (img : Picture),
    cropStart s = Some cs ->
    cropEnd s = Some ce ->
    image s = Some img ->
    rotation (imageState s) = 0%Z ->
    flipH (imageState s) = false ->
    flipV (imageState s) = false ->
    let scaleX := dwidth (originalDimensions s) / rwidth rect in
    let scaleY := dheight (originalDimensions s) / rheight rect in
    let cropWidth := Qabs (px ce - px cs) * scaleX in
    let cropHeight := Qabs (py ce - py cs) * scaleY in
    0 < cropWidth ->
    0 < cropHeight ->
    exists p,
      image (applyCrop rect s) = Some p
      /\ raw_rectangle img
           (Qmin (px cs) (px ce) * scaleX) (Qmin (py cs) (py ce) * scaleY)
           cropWidth cropHeight p
      /\ (forall (b c sa : Z) (f : string),
             let st := withColours b c sa f (imageState s) in
             rotation st = 0%Z /\ flipH st = false /\ flipV st = false
             /\ image (applyCrop rect (setImageState st s)) = Some p)
      /\ imageState (applyCrop rect s) = imageState s.
Proof.
  intros rect s cs ce img Hcs Hce Himg Hrot HflipH HflipV
         scaleX scaleY cropWidth cropHeight Hwidth Hheight.
  eexists. split; [ | split; [ | split]].
  - unfold applyCrop. rewrite Hcs, Hce, Himg. reflexivity.
  - reflexivity.
  - intros b c sa f st. subst st.
    split; [exact Hrot | ]. split; [exact HflipH | ].
    split; [exact HflipV | ].
    unfold applyCrop. cbn [cropStart cropEnd image setImageState
                           originalDimensions].
    rewrite Hcs, Hce, Himg. reflexivity.
  - apply applyCrop_same_log.
Qed.

Lemma crop_installs_raw_rectangle_witness :
  exists p,
    image (applyCrop shown adjusted_then_selected) = Some p
    /\ raw_rectangle (FileData photo)
         (Qmin 10 60 * (200 / 100)) (Qmin 10 40 * (100 / 50))
         (Qabs (60 - 10) * (200 / 100)) (Qabs (40 - 10) * (100 / 50)) p
    /\ image (applyCrop shown
                (setImageState
                   (withColours 100 100 100 "none"
                      (imageState adjusted_then_selected))
                   adjusted_then_selected))
       = Some p.
Proof.
  destruct (crop_installs_raw_rectangle shown adjusted_then_selected
              (mkPoint 10 10) (mkPoint 60 40) (FileData photo))
    as (p & Himg & Hraw & Hany & _);
    try (vm_compute; reflexivity).
  exists p. split; [exact Himg | ]. split; [exact Hraw | ].
  exact (proj2 (proj2 (proj2 (Hany 100%Z 100%Z 100%Z "none"%string)))).
Defined.

(** ** Reset All *)

Lemma handle_original_tracks_image (ev : Event) (s : Session) :
  original_tracks_image s -> original_tracks_image (handle ev s).
Proof.
  unfold original_tracks_image. intros Hs.
  destruct ev; cbn [handle]; try exact Hs.
  - unfold handleCropMouseDown. destruct (isCropping s); exact Hs.
  - unfold handleCropMouseMove.
    destruct (isCropping s), (cropStart s); exact Hs.
  - unfold applyCrop.
    destruct (cropStart s), (cropEnd s); try exact Hs.
    destruct (image s) eqn:Himg; cbn; congruence.
  - unfold handleWidthChange.
    destruct (maintainAspectRatio s && _)%bool; exact Hs.
  - unfold handleHeightChange.
    destruct (maintainAspectRatio s && _)%bool; exact Hs.
  - unfold handleResize. destruct (image s) eqn:Himg; cbn; congruence.
  - unfold undo. destruct (_ <? _)%nat; exact Hs.
  - unfold redo. destruct (_ <? _)%nat; exact Hs.
  - unfold resetAll.
    destruct (originalImage s) eqn:Horig; cbn; congruence.
  - destruct file as [f | ]; [reflexivity | exact Hs].
  - destruct file as [f | ]; cbn; [ | exact Hs].
    destruct (prefix _ _); [reflexivity | exact Hs].
Qed.

Lemma run_original_tracks_image (evs : list Event) :
  original_tracks_image (run evs initialSession).
Proof.
  apply run_invariant; [exact handle_original_tracks_image | reflexivity].
Qed.

(** C6, as stated, fails: Reset All after a crop leaves the cropped
    picture in place, not the upload. *)
Lemma reset_after_crop_keeps_crop :
  image (run [FileChosen (Some photo)] initialSession) = Some (FileData photo)
  /\ image (resetAll uploaded_then_cropped) <> Some (FileData photo)
  /\ image (resetAll uploaded_then_cropped) = image uploaded_then_cropped.
Proof.
  split; [vm_compute; reflexivity | ].
  split; [ | vm_compute; reflexivity].
  vm_compute. discriminate.
Qed.

(** C6, amended.  In every session Reset All leaves [image] as it is,
    that is, the picture installed by the latest upload, crop commit or
    resize commit; in particular, right after a crop or a resize it
    keeps the cropped or resized picture.  When an image is loaded it
    also resets the edit state and the history to their defaults; when
    none is, it does nothing. *)
Theorem reset_restores_latest_image :
  forall (evs : list Event),
    let s := run evs initialSession in
    image (resetAll s) = image s
    /\ (forall rect : DOMRect,
           image (resetAll (applyCrop rect s)) = image (applyCrop rect s))
    /\ image (resetAll (handleResize s)) = image (handleResize s)
    /\ ((exists img, image s = Some img /\ log_is_reset (resetAll s))
        \/ (image s = None /\ resetAll s = s)).
Proof.
  assert (Hkeep : forall evs,
             image (resetAll (run evs initialSession))
             = image (run evs initialSession)).
  { intros evs.
    pose proof (run_original_tracks_image evs) as Htrack.
    unfold original_tracks_image in Htrack.
    unfold resetAll. rewrite Htrack.
    destruct (image (run evs initialSession)) eqn:Himg; cbn; congruence. }
  intros evs s. split; [apply Hkeep | ].
  split; [ | split].
  - intros rect.
    specialize (Hkeep (evs ++ [ApplyCrop rect])).
    rewrite run_app in Hkeep. exact Hkeep.
  - specialize (Hkeep (evs ++ [ApplyResize])).
    rewrite run_app in Hkeep. exact Hkeep.
  - pose proof (run_original_tracks_image evs) as Htrack.
    unfold original_tracks_image in Htrack. fold s in Htrack.
    unfold resetAll. rewrite Htrack.
    destruct (image s) as [img | ] eqn:Himg.
    + left. exists img. repeat split.
    + right. split; reflexivity.
Qed.

(** ** A selection of zero size *)

(** C7 on the code: after a single click the two selection points
    coincide, so the mapped rectangle is 0 x 0; Apply still commits the
    crop.  The image is replaced by the PNG of a 0 x 0 canvas, the
    stored dimensions become 0 x 0, the selection is dropped and crop
    mode is left. *)
Theorem degenerate_crop_is_committed :
  let s := clicked_without_drag in
  let s' := applyCrop shown s in
  (isCropping s = true /\ cropStart s = cropEnd s /\ cropStart s <> None)
  /\ isCropping s' = false
  /\ cropStart s' = None
  /\ image s' <> image s
  /\ (exists c,
         image s' = Some (CanvasData "image/png" c)
         /\ cwidth c == 0 /\ cheight c == 0)
  /\ dwidth (originalDimensions s') == 0
  /\ dheight (originalDimensions s') == 0.
Proof.
  cbv zeta.
  split.
  { split; [vm_compute; reflexivity | ].
    split; [vm_compute; reflexivity | vm_compute; discriminate]. }
  split; [vm_compute; reflexivity | ].
  split; [vm_compute; reflexivity | ].
  split; [vm_compute; discriminate | ].
  split.
  { eexists. split; [vm_compute; reflexivity | ].
    split; vm_compute; reflexivity. }
  split; vm_compute; reflexivity.
Qed.

(** ** Pointer samples *)

(** A move is clamped to the rectangle of the container. *)
Lemma move_is_clamped (e : MouseEvent) (s : Session) :
  isCropping s = true ->
  cropStart s <> None ->
  0 <= rwidth (currentTarget e) ->
  0 <= rheight (currentTarget e) ->
  exists p,
    cropEnd (handleCropMouseMove e s) = Some p
    /\ 0 <= px p <= rwidth (currentTarget e)
    /\ 0 <= py p <= rheight (currentTarget e).
Proof.
  intros Hcrop Hstart Hw Hh. unfold handleCropMouseMove.
  rewrite Hcrop. destruct (cropStart s); [ | congruence].
  eexists. split; [reflexivity | ]. cbn.
  repeat split;
    try apply Q.le_max_l;
    apply Q.max_lub; try assumption; apply Q.le_min_r.
Qed.

(** A clamped coordinate, scaled by the ratio of the stored to the
    displayed size, stays inside the image. *)
Lemma clamped_maps_inside (x shown_size stored_size : Q) :
  0 < shown_size ->
  0 <= stored_size ->
  0 <= x <= shown_size ->
  0 <= x * (stored_size / shown_size) <= stored_size.
Proof.
  intros Hshown Hstored [Hlow Hhigh].
  assert (Hratio : 0 <= stored_size / shown_size).
  { apply Qle_shift_div_l; [exact Hshown | ]. now rewrite Qmult_0_l. }
  split.
  - now apply Qmult_le_0_compat.
  - apply Qle_trans with (shown_size * (stored_size / shown_size)).
    + now apply Qmult_le_compat_r.
    + rewrite Qmult_div_r; [apply Qle_refl | ].
      intros Hzero. rewrite Hzero in Hshown. discriminate Hshown.
Qed.

(** C8 on the code: with the image turned by a quarter, the turned
    image stands out above its container; a press there is stored as it
    comes, 30 pixels above the container, while the move after it is
    clamped.  The crop committed from that selection, with the
    rectangle the browser reports for the turned image, reads the
    source from y = -15, outside [0, 100]. *)
Theorem press_is_not_clamped :
  let s := turned_then_pressed_on_overhang in
  let turned := quarterTurned full_size in
  rotation (imageState s) = 90%Z
  /\ (left turned == 450 /\ top turned == 250
      /\ rwidth turned == 100 /\ rheight turned == 200)
  /\ (left turned <= clientX press_on_overhang <= left turned + rwidth turned
      /\ top turned <= clientY press_on_overhang < top full_size)
  /\ cropStart s = Some (mkPoint 100 (-30))
  /\ cropEnd s = Some (mkPoint 120 30)
  /\ exists c sx sy sw sh,
       image (applyCrop turned s) = Some (CanvasData "image/png" c)
       /\ map args (drawn c) = [DrawFrom sx sy sw sh 0 0 sw sh]
       /\ sy == -15
       /\ ~ (0 <= sy <= dheight (originalDimensions s)).
Proof.
  cbv zeta.
  split; [vm_compute; reflexivity | ].
  split; [repeat split; vm_compute; reflexivity | ].
  split.
  { split; split; vm_compute; first [reflexivity | discriminate]. }
  split; [vm_compute; reflexivity | ].
  split; [vm_compute; reflexivity | ].
  do 5 eexists.
  split; [vm_compute; reflexivity | ].
  split; [vm_compute; reflexivity | ].
  split; [vm_compute; reflexivity | ].
  intros [Hlow _]. vm_compute in Hlow. apply Hlow. reflexivity.
Qed.

(** ** The export canvas *)

Local Open Scope R_scope.

Lemma Q2R_inject_Z (z : Z) : Q2R (inject_Z z) = IZR z.
Proof. unfold Q2R, inject_Z. cbn. lra. Qed.

Lemma Rabs_minus_one : Rabs (-1) = 1.
Proof.
  rewrite <- (Rabs_Ropp (-1)).
  replace (- -1) with 1 by lra. apply Rabs_R1.
Qed.

(** The absolute sine and cosine of the four right angles. *)
Lemma right_angle_0 :
  Rabs (sin (IZR 0 * PI / 180)) = 0 /\ Rabs (cos (IZR 0 * PI / 180)) = 1.
Proof.
  replace (IZR 0 * PI / 180) with 0 by lra.
  rewrite sin_0, cos_0, Rabs_R0, Rabs_R1. split; reflexivity.
Qed.

Lemma right_angle_90 :
  Rabs (sin (IZR 90 * PI / 180)) = 1 /\ Rabs (cos (IZR 90 * PI / 180)) = 0.
Proof.
  replace (IZR 90 * PI / 180) with (PI / 2) by lra.
  rewrite sin_PI2, cos_PI2, Rabs_R0, Rabs_R1. split; reflexivity.
Qed.

Lemma right_angle_180 :
  Rabs (sin (IZR 180 * PI / 180)) = 0 /\ Rabs (cos (IZR 180 * PI / 180)) = 1.
Proof.
  replace (IZR 180 * PI / 180) with PI by lra.
  rewrite sin_PI, cos_PI, Rabs_R0, Rabs_minus_one. split; reflexivity.
Qed.

Lemma right_angle_270 :
  Rabs (sin (IZR 270 * PI / 180)) = 1 /\ Rabs (cos (IZR 270 * PI / 180)) = 0.
Proof.
  replace (IZR 270 * PI / 180) with (3 * (PI / 2)) by lra.
  rewrite sin_3PI2, cos_3PI2, Rabs_R0, Rabs_minus_one. split; reflexivity.
Qed.

(** C9.  For an image of width [w] and height [h], whatever the other
    fields of the edit state, the canvas of the export is [w] by [h] at
    0 and 180 degrees and [h] by [w] at 90 and 270 degrees; for an
    uploaded file these are its decoded width and height. *)
Theorem export_canvas_at_right_angles :
  forall (b c sa : Z) (fh fv : bool) (f : string) (cr : option CropRegion)
         (img : Picture) (file : File),
    let w := Q2R (img_width img) in
    let h := Q2R (img_height img) in
    let canvas angle := exportCanvas (mkImageState b c sa angle fh fv f cr) img in
    (cwidth (canvas 0%Z) = w /\ cheight (canvas 0%Z) = h)
    /\ (cwidth (canvas 90%Z) = h /\ cheight (canvas 90%Z) = w)
    /\ (cwidth (canvas 180%Z) = w /\ cheight (canvas 180%Z) = h)
    /\ (cwidth (canvas 270%Z) = h /\ cheight (canvas 270%Z) = w)
    /\ Q2R (img_width (FileData file)) = IZR (file_width file)
    /\ Q2R (img_height (FileData file)) = IZR (file_height file).
Proof.
  intros b c sa fh fv f cr img file w h canvas.
  assert (Hsize : forall angle,
             cwidth (canvas angle)
             = w * Rabs (cos (IZR angle * PI / 180))
               + h * Rabs (sin (IZR angle * PI / 180))
             /\ cheight (canvas angle)
                = w * Rabs (sin (IZR angle * PI / 180))
                  + h * Rabs (cos (IZR angle * PI / 180))).
  { intros angle. subst canvas. unfold exportCanvas. cbn.
    destruct fh, fv; split; reflexivity. }
  destruct right_angle_0 as [Hs0 Hc0].
  destruct right_angle_90 as [Hs90 Hc90].
  destruct right_angle_180 as [Hs180 Hc180].
  destruct right_angle_270 as [Hs270 Hc270].
  repeat match goal with
         | |- _ /\ _ => split
         end;
    try apply Q2R_inject_Z;
    (rewrite (proj1 (Hsize _)) || rewrite (proj2 (Hsize _)));
    rewrite ?Hs0, ?Hc0, ?Hs90, ?Hc90, ?Hs180, ?Hc180, ?Hs270, ?Hc270; lra.
Qed.

(** ** Preview and export *)

Local Close Scope R_scope.

Lemma append_assoc (a b c : string) :
  ((a ++ b) ++ c)%string = (a ++ b ++ c)%string.
Proof. induction a as [ | ch a IH]; cbn; congruence. Qed.

Lemma append_empty (a : string) : (a ++ "")%string = a.
Proof. induction a as [ | ch a IH]; cbn; congruence. Qed.

Lemma getTransform_text (st : ImageState) :
  getTransform st = String.concat " " (map css_text (previewTransform st)).
Proof.
  unfold getTransform, previewTransform.
  destruct (flipH st), (flipV st); cbn;
    rewrite ?append_assoc; reflexivity.
Qed.

Local Open Scope R_scope.

Lemma getFilterCss_order (st : ImageState) :
  exists preset : string,
    getFilterCss st = (slider_filters st ++ preset)%string
    /\ (preset = ""
        \/ exists f,
             In f filters /\ value f = filter st
             /\ preset = (" " ++ css f)%string).
Proof.
  unfold getFilterCss. fold (slider_filters st).
  destruct (find _ filters) as [f | ] eqn:Hfind.
  - apply find_some in Hfind. destruct Hfind as [Hin Hvalue].
    apply String.eqb_eq in Hvalue.
    destruct (String.eqb (css f) "").
    + exists ""%string. split; [ | now left].
      now rewrite append_empty.
    + exists (" " ++ css f)%string. split; [reflexivity | ].
      right. exists f. repeat split; assumption.
  - exists ""%string. split; [ | now left].
    now rewrite append_empty.
Qed.


(** The one draw of the export, with the context it is made in. *)
Lemma exportCanvas_drawn (st : ImageState) (img : Picture) :
  let canvas := exportCanvas st img in
  drawn canvas
  = [ mkDrawCall img
        (DrawAt (- Q2R (img_width img) / 2) (- Q2R (img_height img) / 2))
        (getFilterCss st)
        ([Translate (cwidth canvas / 2) (cheight canvas / 2);
          Rotate (IZR (rotation st) * PI / 180)]
           ++ (if flipH st then [Scale (-1) 1] else [])
           ++ (if flipV st then [Scale 1 (-1)] else [])) ].
Proof.
  unfold exportCanvas. destruct (flipH st), (flipV st); reflexivity.
Qed.

Lemma export_transform_is_preview_transform
      (st : ImageState) (tx ty : R) :
  ctm ([Translate tx ty; Rotate (IZR (rotation st) * PI / 180)]
         ++ (if flipH st then [Scale (-1) 1] else [])
         ++ (if flipV st then [Scale 1 (-1)] else []))
  = compose (xform_matrix (Translate tx ty))
            (css_transform_matrix (previewTransform st)).
Proof.
  unfold previewTransform, ctm, css_transform_matrix.
  destruct (flipH st), (flipV st); cbn;
    unfold compose, rotation_by, identity; cbn; f_equal; ring.
Qed.

(** For every edit state and image, the export draws the image
    once, under the very filter expression the preview puts on the
    [<img>] element: brightness, contrast and saturation in that order,
    then the functions of the selected preset, if any.  The transform
    in force at that draw is the preview's transform (the rotation,
    then the mirrors) carried to the centre of the export canvas, and
    the image is drawn centred on the origin. *)
Lemma preview_and_export_agree :
  forall (s : Session) (img : Picture),
    let st := imageState s in
    let canvas := exportCanvas st img in
    exists d,
      drawn canvas = [d]
      /\ src d = img
      /\ drawn_filter d = style_filter (imgStyle s)
      /\ (exists preset : string,
             style_filter (imgStyle s) = (slider_filters st ++ preset)%string
             /\ (preset = ""
                 \/ exists f,
                      In f filters /\ value f = filter st
                      /\ preset = (" " ++ css f)%string))
      /\ style_transform (imgStyle s)
         = String.concat " " (map css_text (previewTransform st))
      /\ (exists mirrors,
             previewTransform st = css_rotate (rotation st) :: mirrors
             /\ incl mirrors [css_scaleX (-1); css_scaleY (-1)])
      /\ ctm (drawn_transform d)
         = compose (xform_matrix
                      (Translate (cwidth canvas / 2) (cheight canvas / 2)))
                   (css_transform_matrix (previewTransform st))
      /\ args d
         = DrawAt (- Q2R (img_width img) / 2) (- Q2R (img_height img) / 2).
Proof.
  intros s img st canvas.
  pose proof (exportCanvas_drawn st img) as Hdrawn. cbv zeta in Hdrawn.
  fold canvas in Hdrawn.
  eexists. split; [exact Hdrawn | ].
  cbn [src drawn_filter drawn_transform args imgStyle style_filter
       style_transform].
  split; [reflexivity | ].
  split; [reflexivity | ].
  split; [apply getFilterCss_order | ].
  split; [apply getTransform_text | ].
  split.
  { unfold previewTransform. eexists. split; [reflexivity | ].
    intros t Ht. destruct (flipH st), (flipV st); cbn in *; tauto. }
  split; [apply export_transform_is_preview_transform | reflexivity].
Qed.

(** ** The crop field of the edit state *)

Local Close Scope R_scope.

Lemma Forall_firstn {A : Type} (P : A -> Prop) (n : nat) (l : list A) :
  Forall P l -> Forall P (firstn n l).
Proof.
  intros H. revert n. induction H as [ | a l Ha Hl IH]; intros [ | n]; cbn;
    constructor; auto.
Qed.

Lemma Forall_nth_default {A : Type} (P : A -> Prop) (l : list A) (d : A) (i : nat) :
  Forall P l -> P d -> P (nth i l d).
Proof.
  intros Hl Hd. destruct (Nat.lt_ge_cases i (List.length l)) as [Hin | Hout].
  - now apply Forall_nth.
  - now rewrite nth_overflow.
Qed.

Lemma updateState_no_crop (p : Patch) (s : Session) :
  p_crop p = None -> no_crop s -> no_crop (updateState p s).
Proof.
  intros Hp [Hstate Hhist].
  assert (Hnew : crop (spread (imageState s) p) = None).
  { cbn. rewrite Hp. exact Hstate. }
  split; [exact Hnew | ].
  rewrite updateState_history. apply Forall_app. split.
  - now apply Forall_firstn.
  - constructor; [exact Hnew | constructor].
Qed.

Lemma same_log_no_crop (s s' : Session) :
  same_log s s' -> no_crop s -> no_crop s'.
Proof.
  unfold no_crop. intros (-> & -> & _). trivial.
Qed.

Lemma fresh_log_no_crop (s : Session) :
  imageState s = defaultState -> history s = [defaultState] -> no_crop s.
Proof.
  unfold no_crop. intros -> ->. split; [reflexivity | ].
  constructor; [reflexivity | constructor].
Qed.

Lemma handle_no_crop (ev : Event) (s : Session) :
  no_crop s -> no_crop (handle ev s).
Proof.
  intros Hs.
  destruct ev; cbn [handle];
    try (apply updateState_no_crop; [reflexivity | exact Hs]);
    try exact Hs.
  - eapply same_log_no_crop; [apply handleCropMouseDown_same_log | exact Hs].
  - eapply same_log_no_crop; [apply handleCropMouseMove_same_log | exact Hs].
  - eapply same_log_no_crop; [apply applyCrop_same_log | exact Hs].
  - eapply same_log_no_crop; [apply handleWidthChange_same_log | exact Hs].
  - eapply same_log_no_crop; [apply handleHeightChange_same_log | exact Hs].
  - eapply same_log_no_crop; [apply handleResize_same_log | exact Hs].
  - unfold undo. destruct (_ <? _)%nat; [ | exact Hs].
    destruct Hs as [Hstate Hhist]. split; [ | exact Hhist].
    cbn. now apply Forall_nth_default.
  - unfold redo. destruct (_ <? _)%nat; [ | exact Hs].
    destruct Hs as [Hstate Hhist]. split; [ | exact Hhist].
    cbn. now apply Forall_nth_default.
  - unfold resetAll. destruct (originalImage s); [ | exact Hs].
    now apply fresh_log_no_crop.
  - destruct file as [f | ]; [now apply fresh_log_no_crop | exact Hs].
  - destruct file as [f | ]; cbn; [ | exact Hs].
    destruct (prefix _ _); [now apply fresh_log_no_crop | exact Hs].
Qed.

(** C10.  In every session, whatever the events, the current edit
    state and every entry of the history have no crop region.  The
    preview styles and the export canvas do not read the field: they
    are the same whatever it holds. *)
Theorem crop_field_stays_null :
  forall (evs : list Event),
    let s := run evs initialSession in
    crop (imageState s) = None
    /\ Forall (fun st => crop st = None) (history s)
    /\ forall (c : option CropRegion) (img : Picture),
         getFilterCss (withCrop c (imageState s)) = getFilterCss (imageState s)
         /\ getTransform (withCrop c (imageState s))
            = getTransform (imageState s)
         /\ exportCanvas (withCrop c (imageState s)) img
            = exportCanvas (imageState s) img.
Proof.
  intros evs s.
  assert (Hs : no_crop s).
  { apply run_invariant; [exact handle_no_crop | ].
    now apply fresh_log_no_crop. }
  destruct Hs as [Hstate Hhist].
  split; [exact Hstate | ].
  split; [exact Hhist | ].
  intros c img. repeat split.
Qed.

(** * Further properties of the component *)

(** ** The undo log in every session *)

Lemma handle_starts_at_default (ev : Event) (s : Session) :
  history_ok s -> starts_at_default s -> starts_at_default (handle ev s).
Proof.
  intros [Hlt _] Hs.
  assert (Hpush : forall p, starts_at_default (updateState p s)).
  { intros p. unfold starts_at_default in *.
    rewrite updateState_history.
    destruct (history s) as [ | st0 h]; [cbn in Hlt; lia | ].
    replace (historyIndex s + 1)%nat with (S (historyIndex s)) by lia.
    exact Hs. }
  destruct ev; cbn [handle]; try apply Hpush; try exact Hs.
  - unfold starts_at_default.
    now rewrite (proj1 (proj2 (handleCropMouseDown_same_log e s))).
  - unfold starts_at_default.
    now rewrite (proj1 (proj2 (handleCropMouseMove_same_log e s))).
  - unfold starts_at_default.
    now rewrite (proj1 (proj2 (applyCrop_same_log rect s))).
  - unfold starts_at_default.
    now rewrite (proj1 (proj2 (handleWidthChange_same_log parsed s))).
  - unfold starts_at_default.
    now rewrite (proj1 (proj2 (handleHeightChange_same_log parsed s))).
  - unfold starts_at_default.
    now rewrite (proj1 (proj2 (handleResize_same_log s))).
  - unfold undo. destruct (_ <? _)%nat; exact Hs.
  - unfold redo. destruct (_ <? _)%nat; exact Hs.
  - unfold resetAll. destruct (originalImage s); [reflexivity | exact Hs].
  - destruct file as [f | ]; [reflexivity | exact Hs].
  - destruct file as [f | ]; cbn; [ | exact Hs].
    destruct (prefix _ _); [reflexivity | exact Hs].
Qed.

Lemma run_starts_at_default (evs : list Event) :
  history_ok (run evs initialSession)
  /\ starts_at_default (run evs initialSession).
Proof.
  apply (run_invariant (fun s => history_ok s /\ starts_at_default s)).
  - intros ev s [Hok Hs]. split.
    + now apply handle_ok.
    + now apply handle_starts_at_default.
  - split; [apply initialSession_ok | reflexivity].
Qed.

Lemma undo_all (n : nat) :
  forall s : Session,
    historyIndex s = n ->
    historyIndex (Nat.iter n undo s) = 0%nat
    /\ history (Nat.iter n undo s) = history s
    /\ (n <> 0%nat ->
        imageState (Nat.iter n undo s) = nth 0 (history s) defaultState).
Proof.
  induction n as [ | n IH]; intros s Hn.
  - cbn. repeat split; [exact Hn | congruence].
  - rewrite Nat.iter_succ_r.
    assert (Hundo : undo s
                    = s |> setHistoryIndex n
                        |> setImageState (nth n (history s) defaultState)).
    { unfold undo. rewrite Hn. cbn [Nat.ltb Nat.leb].
      replace (S n - 1)%nat with n by lia. reflexivity. }
    destruct (IH (undo s)) as (Hidx & Hhist & Hstate).
    { rewrite Hundo. reflexivity. }
    rewrite Hidx, Hhist. rewrite Hundo at 1. cbn [history setImageState setHistoryIndex].
    repeat split. intros _.
    destruct n as [ | n].
    + cbn. rewrite Hundo. reflexivity.
    + rewrite Hstate by discriminate. rewrite Hundo. reflexivity.
Qed.

(** X1.  In every session the cursor lies inside the history, the
    history is not empty, and the current edit state is the history
    entry under the cursor, so the "History: i/n" label always has
    [1 <= i <= n]. *)
Theorem cursor_stays_on_current_state :
  forall (evs : list Event),
    let s := run evs initialSession in
    (historyIndex s < List.length (history s))%nat
    /\ (1 <= historyIndex s + 1 <= List.length (history s))%nat
    /\ nth (historyIndex s) (history s) defaultState = imageState s.
Proof.
  intros evs s. destruct (run_history_ok evs) as [Hlt Hnth].
  fold s in Hlt, Hnth. repeat split; try lia. exact Hnth.
Qed.

(** X2.  In every session, one undo after a change gives back the edit
    state from before the change, and a redo after that undo gives back
    the changed session as a whole. *)
Theorem undo_reverts_last_change :
  forall (evs : list Event) (p : Patch),
    let s := run evs initialSession in
    imageState (undo (updateState p s)) = imageState s
    /\ redo (undo (updateState p s)) = updateState p s.
Proof.
  intros evs p s. destruct (run_history_ok evs) as [Hlt Hnth].
  fold s in Hlt, Hnth.
  assert (Hidx : historyIndex (updateState p s) = (historyIndex s + 1)%nat).
  { rewrite updateState_index, length_firstn. lia. }
  split.
  - unfold undo. rewrite Hidx.
    replace (0 <? historyIndex s + 1)%nat with true
      by (symmetry; apply Nat.ltb_lt; lia).
    cbn [imageState setImageState].
    rewrite updateState_history.
    replace (historyIndex s + 1 - 1)%nat with (historyIndex s) by lia.
    rewrite app_nth1 by (rewrite length_firstn; lia).
    rewrite nth_firstn.
    replace (historyIndex s <? historyIndex s + 1)%nat with true
      by (symmetry; apply Nat.ltb_lt; lia).
    exact Hnth.
  - apply redo_undo; [apply updateState_ok | lia].
Qed.

(** X3.  For any state of the component, the Undo button is disabled
    exactly when [undo] would leave the state as it is, and the Redo
    button exactly when [redo] would. *)
Theorem buttons_disabled_iff_noop :
  forall (s : Session),
    (undoDisabled s = true <-> undo s = s)
    /\ (redoDisabled s = true <-> redo s = s).
Proof.
  intros s. unfold undoDisabled, redoDisabled, undo, redo. split; split.
  - intros H. apply Nat.leb_le in H.
    replace (0 <? historyIndex s)%nat with false
      by (symmetry; apply Nat.ltb_ge; lia).
    reflexivity.
  - intros H. apply Nat.leb_le.
    destruct (Nat.ltb_spec 0 (historyIndex s)) as [Hpos | Hzero]; [ | lia].
    apply (f_equal historyIndex) in H. cbn in H. lia.
  - intros H. apply Nat.leb_le in H.
    replace (historyIndex s <? List.length (history s) - 1)%nat with false
      by (symmetry; apply Nat.ltb_ge; lia).
    reflexivity.
  - intros H. apply Nat.leb_le.
    destruct (Nat.ltb_spec (historyIndex s) (List.length (history s) - 1))
      as [Hmore | Hlast]; [ | lia].
    apply (f_equal historyIndex) in H. cbn in H. lia.
Qed.

(** X4.  In every session where Redo is enabled, redo followed by undo
    gives back the session as it was. *)
Theorem redo_then_undo_restores :
  forall (evs : list Event),
    let s := run evs initialSession in
    redoDisabled s = false -> undo (redo s) = s.
Proof.
  intros evs s Henabled. destruct (run_history_ok evs) as [Hlt Hnth].
  fold s in Hlt, Hnth.
  unfold redoDisabled in Henabled. apply Nat.leb_gt in Henabled.
  unfold redo.
  replace (historyIndex s <? List.length (history s) - 1)%nat with true
    by (symmetry; apply Nat.ltb_lt; lia).
  unfold undo. cbn [historyIndex history setHistoryIndex setImageState].
  replace (0 <? historyIndex s + 1)%nat with true
    by (symmetry; apply Nat.ltb_lt; lia).
  replace (historyIndex s + 1 - 1)%nat with (historyIndex s) by lia.
  rewrite Hnth. destruct s; reflexivity.
Qed.

Lemma redo_then_undo_restores_witness :
  let s := run [BrightnessSlider 150; Undo] initialSession in
  redoDisabled s = false /\ undo (redo s) = s.
Proof.
  split.
  - vm_compute. reflexivity.
  - apply (redo_then_undo_restores [BrightnessSlider 150; Undo]).
    vm_compute. reflexivity.
Defined.

(** X5.  In every session, pressing Undo as many times as the cursor
    is high brings the cursor to the first entry and the edit state
    back to the default one, without touching the history. *)
Theorem undo_all_the_way_gives_default :
  forall (evs : list Event),
    let s := run evs initialSession in
    let s' := Nat.iter (historyIndex s) undo s in
    historyIndex s' = 0%nat
    /\ imageState s' = defaultState
    /\ history s' = history s
    /\ undoDisabled s' = true.
Proof.
  intros evs s s'.
  destruct (run_starts_at_default evs) as [[Hlt Hnth] Hfirst].
  fold s in Hlt, Hnth, Hfirst.
  destruct (undo_all (historyIndex s) s eq_refl) as (Hidx & Hhist & Hstate).
  fold s' in Hidx, Hhist, Hstate.
  split; [exact Hidx | ]. split; [ | split; [exact Hhist | ]].
  - destruct (Nat.eq_dec (historyIndex s) 0) as [Hzero | Hpos].
    + subst s'. rewrite Hzero. cbn. rewrite <- Hnth, Hzero. exact Hfirst.
    + rewrite Hstate by exact Hpos. exact Hfirst.
  - unfold undoDisabled. rewrite Hidx. reflexivity.
Qed.

(** ** Rotation and flip buttons *)

(** Compute a spread without touching the numbers in it. *)
Ltac unfold_spread :=
  cbv [spread over
       brightness contrast saturation rotation flipH flipV filter crop
       p_brightness p_contrast p_saturation p_rotation p_flipH p_flipV
       p_filter p_crop].

Lemma withRotation_twice (r r' : Z) (st : ImageState) :
  withRotation r' (withRotation r st) = withRotation r' st.
Proof. reflexivity. Qed.

Lemma rotation_withRotation (r : Z) (st : ImageState) :
  rotation (withRotation r st) = r.
Proof. reflexivity. Qed.

Lemma updateState_state (p : Patch) (s : Session) :
  imageState (updateState p s) = spread (imageState s) p.
Proof. reflexivity. Qed.

Lemma withRotation_same (st : ImageState) : withRotation (rotation st) st = st.
Proof. destruct st; reflexivity. Qed.

(** X6.  The rotate buttons add or subtract exactly 90 per press and
    never wrap around: after [n] presses of +90 the rotation is the old
    one plus [90 n], after [n] presses of -90 the old one minus [90 n],
    and the other fields of the edit state are untouched. *)
Theorem rotate_buttons_accumulate :
  forall (n : nat) (s : Session),
    imageState (presses n RotateRight s)
    = withRotation (rotation (imageState s) + 90 * Z.of_nat n) (imageState s)
    /\ imageState (presses n RotateLeft s)
       = withRotation (rotation (imageState s) - 90 * Z.of_nat n)
                      (imageState s).
Proof.
  intros n s. unfold presses. induction n as [ | n [IHr IHl]].
  - cbn [Nat.iter Z.of_nat].
    rewrite Z.mul_0_r, Z.add_0_r, Z.sub_0_r.
    now rewrite withRotation_same.
  - rewrite !Nat.iter_succ. cbn [handle].
    rewrite !updateState_state, IHr, IHl.
    rewrite !rotation_withRotation. fold (withRotation
      (rotation (imageState s) + 90 * Z.of_nat n + 90)
      (withRotation (rotation (imageState s) + 90 * Z.of_nat n) (imageState s))).
    fold (withRotation
      (rotation (imageState s) - 90 * Z.of_nat n - 90)
      (withRotation (rotation (imageState s) - 90 * Z.of_nat n) (imageState s))).
    rewrite !withRotation_twice.
    split; f_equal; lia.
Qed.

(** X7.  Pressing a flip button twice, or +90 and then -90, gives back
    the edit state from before; in a session these are still two
    entries of the history, so the cursor is two steps further. *)
Theorem flips_and_opposite_turns_cancel :
  forall (evs : list Event),
    let s := run evs initialSession in
    imageState (presses 2 FlipH s) = imageState s
    /\ imageState (presses 2 FlipV s) = imageState s
    /\ imageState (handle RotateLeft (handle RotateRight s)) = imageState s
    /\ historyIndex (presses 2 FlipH s) = (historyIndex s + 2)%nat
    /\ historyIndex (handle RotateLeft (handle RotateRight s))
       = (historyIndex s + 2)%nat.
Proof.
  intros evs s. destruct (run_history_ok evs) as [Hlt _]. fold s in Hlt.
  assert (Hstep : forall p s0,
             (historyIndex s0 < List.length (history s0))%nat ->
             historyIndex (updateState p s0) = (historyIndex s0 + 1)%nat
             /\ (historyIndex (updateState p s0)
                 < List.length (history (updateState p s0)))%nat).
  { intros p s0 H0. split.
    - rewrite updateState_index, length_firstn. lia.
    - apply updateState_ok. }
  split; [ | split; [ | split; [ | split]]].
  - change (presses 2 FlipH s) with (handle FlipH (handle FlipH s)).
    cbn [handle]. rewrite !updateState_state.
    destruct (imageState s) as [b c sa r fh fv f cr]. unfold_spread.
    now rewrite negb_involutive.
  - change (presses 2 FlipV s) with (handle FlipV (handle FlipV s)).
    cbn [handle]. rewrite !updateState_state.
    destruct (imageState s) as [b c sa r fh fv f cr]. unfold_spread.
    now rewrite negb_involutive.
  - cbn [handle]. rewrite !updateState_state.
    destruct (imageState s) as [b c sa r fh fv f cr]. unfold_spread.
    f_equal. lia.
  - change (presses 2 FlipH s) with (handle FlipH (handle FlipH s)).
    cbn [handle].
    destruct (Hstep (mkPatch None None None None
                       (Some (negb (flipH (imageState s)))) None None None)
                    s Hlt) as [H1 Hlt1].
    rewrite (proj1 (Hstep _ _ Hlt1)), H1. lia.
  - cbn [handle].
    destruct (Hstep (mkPatch None None None
                       (Some (rotation (imageState s) + 90)%Z)
                       None None None None)
                    s Hlt) as [H1 Hlt1].
    rewrite (proj1 (Hstep _ _ Hlt1)), H1. lia.
Qed.

(** ** The export canvas at any angle *)

Local Open Scope R_scope.

Lemma exportCanvas_size (st : ImageState) (img : Picture) :
  let w := Q2R (img_width img) in
  let h := Q2R (img_height img) in
  let radians := IZR (rotation st) * PI / 180 in
  cwidth (exportCanvas st img)
  = w * Rabs (cos radians) + h * Rabs (sin radians)
  /\ cheight (exportCanvas st img)
     = w * Rabs (sin radians) + h * Rabs (cos radians).
Proof.
  unfold exportCanvas. destruct (flipH st), (flipV st); split; reflexivity.
Qed.

Lemma degrees_plus (a b : Z) :
  IZR (a + b) * PI / 180 = IZR a * PI / 180 + IZR b * PI / 180.
Proof. rewrite plus_IZR. lra. Qed.

Lemma turn_by_quarter (x : R) :
  Rabs (sin (x + IZR 90 * PI / 180)) = Rabs (cos x)
  /\ Rabs (cos (x + IZR 90 * PI / 180)) = Rabs (sin x).
Proof.
  replace (x + IZR 90 * PI / 180) with (PI / 2 + x) by lra.
  rewrite <- cos_sin. split; [reflexivity | ].
  rewrite (sin_cos x), Rabs_Ropp. reflexivity.
Qed.

Lemma turn_by_half (x : R) :
  sin (x + IZR 180 * PI / 180) = - sin x
  /\ cos (x + IZR 180 * PI / 180) = - cos x.
Proof.
  replace (x + IZR 180 * PI / 180) with (x + PI) by lra.
  split; [apply neg_sin | apply neg_cos].
Qed.

Lemma turn_by_full (x : R) :
  sin (x + IZR 360 * PI / 180) = sin x
  /\ cos (x + IZR 360 * PI / 180) = cos x.
Proof.
  replace (x + IZR 360 * PI / 180) with (x + 2 * INR 1 * PI) by (cbn; lra).
  split; [apply sin_period | apply cos_period].
Qed.

(** X8.  For any edit state, image and angle: a further quarter turn
    swaps the width and the height of the export canvas, a further half
    turn keeps them, and so does turning the other way. *)
Theorem export_canvas_size_under_turns :
  forall (st : ImageState) (img : Picture),
    let canvas r := exportCanvas (withRotation r st) img in
    let a := rotation st in
    (cwidth (canvas (a + 90)%Z) = cheight (canvas a)
     /\ cheight (canvas (a + 90)%Z) = cwidth (canvas a))
    /\ (cwidth (canvas (a + 180)%Z) = cwidth (canvas a)
        /\ cheight (canvas (a + 180)%Z) = cheight (canvas a))
    /\ (cwidth (canvas (- a)%Z) = cwidth (canvas a)
        /\ cheight (canvas (- a)%Z) = cheight (canvas a)).
Proof.
  intros st img canvas a.
  assert (Hsize : forall r,
             cwidth (canvas r)
             = Q2R (img_width img) * Rabs (cos (IZR r * PI / 180))
               + Q2R (img_height img) * Rabs (sin (IZR r * PI / 180))
             /\ cheight (canvas r)
                = Q2R (img_width img) * Rabs (sin (IZR r * PI / 180))
                  + Q2R (img_height img) * Rabs (cos (IZR r * PI / 180))).
  { intros r. apply (exportCanvas_size (withRotation r st) img). }
  destruct (turn_by_quarter (IZR a * PI / 180)) as [Hqs Hqc].
  destruct (turn_by_half (IZR a * PI / 180)) as [Hhs Hhc].
  destruct (Hsize a) as [Wa Ha].
  destruct (Hsize (a + 90)%Z) as [Wq Hq].
  destruct (Hsize (a + 180)%Z) as [Wh Hh].
  destruct (Hsize (- a)%Z) as [Wn Hn].
  rewrite degrees_plus, Hqs, Hqc in Wq, Hq.
  rewrite degrees_plus, Hhs, Hhc, !Rabs_Ropp in Wh, Hh.
  rewrite opp_IZR in Wn, Hn.
  replace (- IZR a * PI / 180) with (- (IZR a * PI / 180)) in Wn, Hn by lra.
  rewrite cos_neg, sin_neg, Rabs_Ropp in Wn, Hn.
  repeat split; lra.
Qed.

Lemma rotation_by_full_turn (a : Z) :
  rotation_by (IZR (a + 360) * PI / 180) = rotation_by (IZR a * PI / 180).
Proof.
  unfold rotation_by. rewrite degrees_plus.
  destruct (turn_by_full (IZR a * PI / 180)) as [-> ->]. reflexivity.
Qed.

(** X9.  Four more presses of +90 change nothing in the export: with
    the rotation 360 degrees further, the canvas has the same size, the
    image is drawn with the same filter at the same place, and the
    transformation matrix in force is the same. *)
Theorem export_is_periodic_in_rotation :
  forall (st : ImageState) (img : Picture),
    let canvas := exportCanvas st img in
    let canvas' := exportCanvas (withRotation (rotation st + 360) st) img in
    cwidth canvas' = cwidth canvas
    /\ cheight canvas' = cheight canvas
    /\ exists d d',
         drawn canvas = [d] /\ drawn canvas' = [d']
         /\ src d' = src d
         /\ args d' = args d
         /\ drawn_filter d' = drawn_filter d
         /\ ctm (drawn_transform d') = ctm (drawn_transform d).
Proof.
  intros st img canvas canvas'.
  destruct (exportCanvas_size st img) as [Hw Hh].
  destruct (exportCanvas_size (withRotation (rotation st + 360) st) img)
    as [Hw' Hh'].
  cbv zeta in *. rewrite rotation_withRotation in Hw', Hh'.
  rewrite degrees_plus in Hw', Hh'.
  destruct (turn_by_full (IZR (rotation st) * PI / 180)) as [Hs Hc].
  rewrite Hs, Hc in Hw', Hh'.
  fold canvas in Hw, Hh. fold canvas' in Hw', Hh'.
  assert (Hwidth : cwidth canvas' = cwidth canvas) by congruence.
  assert (Hheight : cheight canvas' = cheight canvas) by congruence.
  split; [exact Hwidth | ]. split; [exact Hheight | ].
  pose proof (exportCanvas_drawn st img) as Hd.
  pose proof (exportCanvas_drawn (withRotation (rotation st + 360) st) img)
    as Hd'.
  cbv zeta in Hd, Hd'. fold canvas in Hd. fold canvas' in Hd'.
  eexists. eexists.
  split; [exact Hd | ]. split; [exact Hd' | ].
  cbn [src args drawn_filter drawn_transform].
  split; [reflexivity | ]. split; [reflexivity | ].
  split; [destruct st; reflexivity | ].
  rewrite !export_transform_is_preview_transform.
  rewrite Hwidth, Hheight. f_equal.
  unfold css_transform_matrix, previewTransform.
  rewrite rotation_withRotation.
  change (flipH (withRotation (rotation st + 360) st)) with (flipH st).
  change (flipV (withRotation (rotation st + 360) st)) with (flipV st).
  destruct (flipH st), (flipV st); cbn [app fold_left css_matrix];
    rewrite rotation_by_full_turn; reflexivity.
Qed.

Lemma within_abs (c : R) : - Rabs c <= c <= Rabs c.
Proof.
  split.
  - pose proof (Rle_abs (- c)) as H. rewrite Rabs_Ropp in H. lra.
  - apply Rle_abs.
Qed.

(** A point of a centred [w] by [h] box, turned by any angle and then
    mirrored or not, stays within the bounding half-widths. *)
Lemma turned_point_bounded (w h x y c s kx ky : R) :
  - w / 2 <= x <= w / 2 ->
  - h / 2 <= y <= h / 2 ->
  (kx = 1 \/ kx = -1) ->
  (ky = 1 \/ ky = -1) ->
  let bw := w * Rabs c + h * Rabs s in
  let bh := w * Rabs s + h * Rabs c in
  0 <= c * kx * x + - s * ky * y + bw / 2 <= bw
  /\ 0 <= s * kx * x + c * ky * y + bh / 2 <= bh.
Proof.
  intros Hx Hy Hkx Hky bw bh. subst bw bh.
  pose proof (within_abs c) as Hc. pose proof (within_abs s) as Hs.
  assert (Hxc : - (w / 2 * Rabs c) <= c * x <= w / 2 * Rabs c) by (split; nra).
  assert (Hxs : - (w / 2 * Rabs s) <= s * x <= w / 2 * Rabs s) by (split; nra).
  assert (Hyc : - (h / 2 * Rabs c) <= c * y <= h / 2 * Rabs c) by (split; nra).
  assert (Hys : - (h / 2 * Rabs s) <= s * y <= h / 2 * Rabs s) by (split; nra).
  destruct Hkx as [-> | ->], Hky as [-> | ->]; repeat split; nra.
Qed.

(** The transformation matrix of the export, written out. *)
Lemma export_ctm (tx ty angle : R) (fh fv : bool) :
  let kx := if fh then -1 else 1 in
  let ky := if fv then -1 else 1 in
  ctm ([Translate tx ty; Rotate angle]
         ++ (if fh then [Scale (-1) 1] else [])
         ++ (if fv then [Scale 1 (-1)] else []))
  = mkAffine (cos angle * kx) (sin angle * kx)
             (- sin angle * ky) (cos angle * ky) tx ty.
Proof.
  unfold ctm.
  destruct fh, fv; cbn; unfold compose, rotation_by, identity; cbn;
    f_equal; ring.
Qed.

(** The image is drawn on the box [-w/2, w/2] x [-h/2, h/2], and the
    transform in force at the draw sends every point of that box
    inside the size assigned to the canvas. *)
Lemma image_box_maps_into_assigned_size :
  forall (st : ImageState) (img : Picture) (x y : R),
    let w := Q2R (img_width img) in
    let h := Q2R (img_height img) in
    let canvas := exportCanvas st img in
    - w / 2 <= x <= w / 2 ->
    - h / 2 <= y <= h / 2 ->
    exists d,
      drawn canvas = [d]
      /\ args d = DrawAt (- w / 2) (- h / 2)
      /\ 0 <= fst (apply_affine (ctm (drawn_transform d)) x y) <= cwidth canvas
      /\ 0 <= snd (apply_affine (ctm (drawn_transform d)) x y) <= cheight canvas.
Proof.
  intros st img x y w h canvas Hx Hy.
  pose proof (exportCanvas_drawn st img) as Hd. cbv zeta in Hd.
  fold canvas in Hd.
  eexists. split; [exact Hd | ]. split; [reflexivity | ].
  cbn [drawn_transform].
  destruct (exportCanvas_size st img) as [Hw Hh]. cbv zeta in Hw, Hh.
  fold canvas w h in Hw, Hh. rewrite Hw, Hh.
  set (radians := IZR (rotation st) * PI / 180) in *.
  pose proof (turned_point_bounded w h x y (cos radians) (sin radians)
                (if flipH st then -1 else 1) (if flipV st then -1 else 1)
                Hx Hy) as Hbound.
  cbv zeta in Hbound.
  rewrite export_ctm. unfold apply_affine. cbn [ma mb mc md me mf fst snd].
  destruct Hbound as [Hbx Hby];
    [destruct (flipH st); auto | destruct (flipV st); auto | ].
  split; split; lra.
Qed.

(** A size from 0 up to 2^31 - 1 is kept as its integer part. *)
Lemma pixelSize_in_range (default : Z) (x : R) :
  0 <= x -> x < 2147483648 ->
  pixelSize default x = Int_part x
  /\ IZR (Int_part x) <= x < IZR (Int_part x) + 1.
Proof.
  intros Hlow Hhigh.
  destruct (base_Int_part x) as [Hle Hgt].
  assert (Hnonneg : (-1 < Int_part x)%Z) by (apply lt_IZR; lra).
  assert (Hbelow : (Int_part x < 2147483648)%Z) by (apply lt_IZR; lra).
  split; [ | lra].
  unfold pixelSize, truncate.
  destruct (Rle_dec 0 x) as [_ | Hneg]; [ | contradiction].
  rewrite Z.mod_small by lia.
  destruct (Z.leb_spec (Int_part x) 2147483647); [reflexivity | lia].
Qed.

(** X10.  The export clips less than one pixel.  The image is drawn on
    the box [-w/2, w/2] x [-h/2, h/2], and the transform in force
    sends every point of that box to a point between 0 and the size
    assigned to the canvas, at any rotation and with any flips.  The
    browser keeps the integer part of that size (below 2^31), so the
    point lies less than one pixel beyond the canvas at most. *)
Theorem export_clips_less_than_a_pixel :
  forall (st : ImageState) (img : Picture) (x y : R),
    let w := Q2R (img_width img) in
    let h := Q2R (img_height img) in
    let canvas := exportCanvas st img in
    - w / 2 <= x <= w / 2 ->
    - h / 2 <= y <= h / 2 ->
    cwidth canvas < 2147483648 ->
    cheight canvas < 2147483648 ->
    exists d,
      drawn canvas = [d]
      /\ args d = DrawAt (- w / 2) (- h / 2)
      /\ (0 <= fst (apply_affine (ctm (drawn_transform d)) x y)
          <= cwidth canvas
          /\ fst (apply_affine (ctm (drawn_transform d)) x y)
             < IZR (pixelSize 300 (cwidth canvas)) + 1)
      /\ (0 <= snd (apply_affine (ctm (drawn_transform d)) x y)
          <= cheight canvas
          /\ snd (apply_affine (ctm (drawn_transform d)) x y)
             < IZR (pixelSize 150 (cheight canvas)) + 1).
Proof.
  intros st img x y w h canvas Hx Hy Hwidth Hheight.
  destruct (image_box_maps_into_assigned_size st img x y Hx Hy)
    as (d & Hd & Hargs & Hpx & Hpy).
  fold canvas in Hd, Hpx, Hpy.
  destruct (pixelSize_in_range 300 (cwidth canvas)) as [Hw1 Hw2];
    [lra | exact Hwidth | ].
  destruct (pixelSize_in_range 150 (cheight canvas)) as [Hh1 Hh2];
    [lra | exact Hheight | ].
  exists d. split; [exact Hd | ]. split; [exact Hargs | ].
  rewrite Hw1, Hh1. split; split; try assumption; lra.
Qed.

Lemma export_clips_less_than_a_pixel_witness :
  let canvas := exportCanvas defaultState (FileData photo) in
  exists d,
    drawn canvas = [d]
    /\ (0 <= fst (apply_affine (ctm (drawn_transform d)) 0 0) <= cwidth canvas
        /\ fst (apply_affine (ctm (drawn_transform d)) 0 0)
           < IZR (pixelSize 300 (cwidth canvas)) + 1).
Proof.
  assert (Hsize : cwidth (exportCanvas defaultState (FileData photo)) = 200
                  /\ cheight (exportCanvas defaultState (FileData photo)) = 100).
  { destruct (exportCanvas_size defaultState (FileData photo)) as [Hw Hh].
    cbv zeta in Hw, Hh.
    cbn [img_width img_height photo file_width file_height
         defaultState rotation] in Hw, Hh.
    rewrite !Q2R_inject_Z in Hw, Hh.
    destruct right_angle_0 as [Hs Hc]. rewrite Hs, Hc in Hw, Hh.
    split; lra. }
  destruct (export_clips_less_than_a_pixel defaultState (FileData photo) 0 0)
    as (d & Hd & _ & Hx & _).
  - cbn [img_width photo file_width]. rewrite Q2R_inject_Z. lra.
  - cbn [img_height photo file_height]. rewrite Q2R_inject_Z. lra.
  - rewrite (proj1 Hsize). lra.
  - rewrite (proj2 Hsize). lra.
  - exists d. split; [exact Hd | exact Hx].
Defined.

Local Close Scope R_scope.

(** ** The resize fields *)

Lemma floor_of_half_more (n : Z) : Qfloor (inject_Z n + (1 # 2)) = n.
Proof.
  pose proof (Qfloor_le (inject_Z n + (1 # 2))) as Hle.
  pose proof (Qlt_floor (inject_Z n + (1 # 2))) as Hlt.
  set (k := Qfloor (inject_Z n + (1 # 2))) in *.
  rewrite inject_Z_plus in Hlt. change (inject_Z 1) with 1 in Hlt.
  assert (H1 : inject_Z k < inject_Z (n + 1)).
  { rewrite inject_Z_plus. change (inject_Z 1) with 1. Lqa.lra. }
  assert (H2 : inject_Z n < inject_Z (k + 1)).
  { rewrite inject_Z_plus. change (inject_Z 1) with 1. Lqa.lra. }
  rewrite <- Zlt_Qlt in H1, H2. lia.
Qed.


Lemma Qlt_bool_true (a b : Q) : a < b -> Qlt_bool a b = true.
Proof.
  intros H. unfold Qlt_bool.
  destruct (Qle_bool b a) eqn:Hle; [ | reflexivity].
  apply Qle_bool_iff in Hle. Lqa.lra.
Qed.



(** X12.  After a file with positive width and height is loaded, with
    "maintain aspect ratio" checked, typing the image's own width sets
    the height field to the image's own height, and typing its own
    height sets the width field to its own width. *)
Theorem typing_own_size_gives_own_size :
  forall (f : File) (s : Session),
    maintainAspectRatio s = true ->
    (0 < file_width f)%Z ->
    (0 < file_height f)%Z ->
    let loaded := fileLoaded f s in
    resizeHeight (handleWidthChange (Some (file_width f)) loaded)
    = inject_Z (file_height f)
    /\ resizeWidth (handleHeightChange (Some (file_height f)) loaded)
       = inject_Z (file_width f).
Proof.
  intros f s Hkeep Hw Hh loaded.
  assert (HwQ : 0 < inject_Z (file_width f)).
  { change 0 with (inject_Z 0). now rewrite <- Zlt_Qlt. }
  assert (HhQ : 0 < inject_Z (file_height f)).
  { change 0 with (inject_Z 0). now rewrite <- Zlt_Qlt. }
  assert (Hcancel : forall a b : Q, 0 < a -> a * (b / a) == b).
  { intros a b Ha. field. intros Hzero. rewrite Hzero in Ha.
    discriminate Ha. }
  split.
  - unfold handleWidthChange. subst loaded. cbn.
    rewrite Hkeep, (Qlt_bool_true _ _ HwQ). cbn. unfold round.
    rewrite (Qfloor_comp _ (inject_Z (file_height f) + (1 # 2))).
    + now rewrite floor_of_half_more.
    + now rewrite Hcancel.
  - unfold handleHeightChange. subst loaded. cbn.
    rewrite Hkeep, (Qlt_bool_true _ _ HhQ). cbn. unfold round.
    rewrite (Qfloor_comp _ (inject_Z (file_width f) + (1 # 2))).
    + now rewrite floor_of_half_more.
    + now rewrite Hcancel.
Qed.

Lemma typing_own_size_gives_own_size_witness :
  resizeHeight (handleWidthChange (Some 200%Z) (fileLoaded photo initialSession))
  = 100
  /\ resizeWidth (handleHeightChange (Some 100%Z) (fileLoaded photo initialSession))
     = 200.
Proof.
  apply (typing_own_size_gives_own_size photo initialSession);
    reflexivity.
Defined.



(** ** The crop selection *)

Lemma handle_selection_ok (ev : Event) (s : Session) :
  selection_ok s -> selection_ok (handle ev s).
Proof.
  intros Hs.
  destruct ev; cbn [handle]; try exact Hs.
  - destruct Hs as [[Hcs Hce] | (cs & ce & Hcs & Hce & Hmode)].
    + left. split; assumption.
    + right. exists cs, ce. repeat split; assumption.
  - unfold handleCropMouseDown.
    destruct (isCropping s) eqn:Hmode; cbn [negb]; [ | exact Hs].
    right. eexists. eexists. repeat split. exact Hmode.
  - unfold handleCropMouseMove.
    destruct (isCropping s) eqn:Hmode; [ | exact Hs].
    destruct (cropStart s) as [cs | ] eqn:Hcs; [ | exact Hs].
    right. eexists. eexists. repeat split; [exact Hcs | exact Hmode].
  - unfold applyCrop.
    destruct (cropStart s), (cropEnd s), (image s); try exact Hs.
    left. split; reflexivity.
  - left. split; reflexivity.
  - unfold handleWidthChange.
    destruct (maintainAspectRatio s && _)%bool; exact Hs.
  - unfold handleHeightChange.
    destruct (maintainAspectRatio s && _)%bool; exact Hs.
  - unfold handleResize. destruct (image s); exact Hs.
  - unfold undo. destruct (_ <? _)%nat; exact Hs.
  - unfold redo. destruct (_ <? _)%nat; exact Hs.
  - unfold resetAll. destruct (originalImage s); exact Hs.
  - destruct file as [f | ]; exact Hs.
  - destruct file as [f | ]; cbn; [ | exact Hs].
    destruct (prefix _ _); exact Hs.
Qed.

(** X14.  In every session the two selection points are both absent or
    both present, and present only while crop mode is on; hence the
    crop overlay is shown exactly when [getCropRect] has a rectangle
    for it. *)
Theorem selection_comes_in_pairs :
  forall (evs : list Event),
    let s := run evs initialSession in
    ((cropStart s = None /\ cropEnd s = None)
     \/ (exists cs ce,
            cropStart s = Some cs /\ cropEnd s = Some ce
            /\ isCropping s = true))
    /\ overlayShown s
       = match getCropRect s with
         | Some _ => true
         | None => false
         end.
Proof.
  intros evs s.
  assert (Hs : selection_ok s).
  { apply run_invariant; [exact handle_selection_ok | ].
    left. split; reflexivity. }
  split; [exact Hs | ].
  unfold overlayShown, getCropRect.
  destruct Hs as [[Hcs Hce] | (cs & ce & Hcs & Hce & Hmode)].
  - rewrite Hcs. destruct (isCropping s); reflexivity.
  - rewrite Hcs, Hce, Hmode. reflexivity.
Qed.

Lemma applyCrop_refused (rect : DOMRect) (s : Session) :
  cropStart s = None \/ cropEnd s = None \/ image s = None ->
  applyCrop rect s = s.
Proof.
  unfold applyCrop. intros [H | [H | H]]; rewrite H.
  - reflexivity.
  - destruct (cropStart s); reflexivity.
  - destruct (cropStart s), (cropEnd s); reflexivity.
Qed.

(** X15.  A second Apply right after a committed crop changes nothing,
    whatever rectangle the image has by then, and neither does Apply
    after Cancel: the commit and the cancel both drop the selection,
    and without a selection the crop is refused. *)
Theorem apply_crop_once :
  forall (rect rect' : DOMRect) (s : Session),
    applyCrop rect' (applyCrop rect s) = applyCrop rect s
    /\ applyCrop rect (cancelCrop s) = cancelCrop s
    /\ isCropping (cancelCrop s) = false
    /\ same_log s (cancelCrop s)
    /\ image (cancelCrop s) = image s.
Proof.
  intros rect rect' s.
  split; [ | split; [apply applyCrop_refused; now left | repeat split]].
  assert (Hrefused : cropStart s = None \/ cropEnd s = None \/ image s = None ->
                     applyCrop rect' (applyCrop rect s) = applyCrop rect s).
  { intros H. rewrite (applyCrop_refused rect s H).
    now apply applyCrop_refused. }
  destruct (cropStart s) as [cs | ] eqn:Hcs; [ | auto].
  destruct (cropEnd s) as [ce | ] eqn:Hce; [ | auto].
  destruct (image s) as [img | ] eqn:Himg; [ | auto].
  apply applyCrop_refused. left.
  unfold applyCrop. rewrite Hcs, Hce, Himg. reflexivity.
Qed.

Lemma min_plus_abs (a b : Q) : Qmin a b + Qabs (b - a) == Qmax a b.
Proof.
  destruct (Qlt_le_dec b a) as [Hlt | Hle].
  - rewrite Q.min_r, Q.max_l by Lqa.lra.
    rewrite Qabs_neg by Lqa.lra. Lqa.lra.
  - rewrite Q.min_l, Q.max_r by Lqa.lra.
    rewrite Qabs_pos by Lqa.lra. Lqa.lra.
Qed.

(** X16.  For any two selection points, the overlay rectangle has a
    non-negative width and height, has the two points on its corners
    (its left edge is the smaller x, its right edge the larger, and the
    same for y), and does not depend on which point is the start; the
    rectangle a crop reads from the image is this rectangle with x and
    width scaled by stored width over displayed width and y and height
    by stored height over displayed height. *)
Theorem overlay_is_the_cropped_rectangle :
  forall (cs ce : Point) (rect : DOMRect) (img : Picture) (s0 : Session),
    let s := s0 |> setImage (Some img) |> withSelection cs ce in
    let scaleX := dwidth (originalDimensions s) / rwidth rect in
    let scaleY := dheight (originalDimensions s) / rheight rect in
    exists r,
      getCropRect s = Some r
      /\ (0 <= rect_width r /\ 0 <= rect_height r)
      /\ (rect_left r == Qmin (px cs) (px ce)
          /\ rect_left r + rect_width r == Qmax (px cs) (px ce)
          /\ rect_top r == Qmin (py cs) (py ce)
          /\ rect_top r + rect_height r == Qmax (py cs) (py ce))
      /\ (exists r',
             getCropRect (s0 |> withSelection ce cs) = Some r'
             /\ rect_left r' == rect_left r /\ rect_top r' == rect_top r
             /\ rect_width r' == rect_width r
             /\ rect_height r' == rect_height r)
      /\ exists c,
           image (applyCrop rect s) = Some (CanvasData "image/png" c)
           /\ map args (drawn c)
              = [DrawFrom (rect_left r * scaleX) (rect_top r * scaleY)
                          (rect_width r * scaleX) (rect_height r * scaleY)
                          0 0
                          (rect_width r * scaleX) (rect_height r * scaleY)].
Proof.
  intros cs ce rect img s0 s scaleX scaleY.
  eexists. split; [reflexivity | ].
  cbn [rect_left rect_top rect_width rect_height].
  split; [split; apply Qabs_nonneg | ].
  split.
  { split; [reflexivity | ]. split; [apply min_plus_abs | ].
    split; [reflexivity | apply min_plus_abs]. }
  split.
  { eexists. split; [reflexivity | ].
    cbn [rect_left rect_top rect_width rect_height].
    split; [apply Q.min_comm | ]. split; [apply Q.min_comm | ].
    split; rewrite Qabs_Qminus; reflexivity. }
  eexists. split; reflexivity.
Qed.

(** The rectangle of a selection inside the displayed box, scaled to
    the stored size, lies inside the stored image. *)
Lemma scaled_selection_in_image (a b shown_size stored_size : Q) :
  0 < shown_size -> 0 <= stored_size ->
  0 <= a <= shown_size -> 0 <= b <= shown_size ->
  0 <= Qmin a b * (stored_size / shown_size)
  /\ Qmin a b * (stored_size / shown_size)
     + Qabs (b - a) * (stored_size / shown_size)
     <= stored_size.
Proof.
  intros Hshown Hstored Ha Hb. split.
  - apply (clamped_maps_inside (Qmin a b) shown_size stored_size);
      try assumption.
    split; [apply Q.min_glb; tauto | ].
    apply Qle_trans with a; [apply Q.le_min_l | tauto].
  - rewrite <- Qmult_plus_distr_l, min_plus_abs.
    apply (clamped_maps_inside (Qmax a b) shown_size stored_size);
      try assumption.
    split; [ | apply Q.max_lub; tauto].
    apply Qle_trans with a; [tauto | apply Q.le_max_l].
Qed.

(** X17.  When both selection points lie inside the displayed box of
    the image and the box has a positive size, the rectangle a crop
    reads lies inside the stored image: its left and top are not
    negative and its right and bottom do not exceed the stored width
    and height. *)
Theorem selection_in_box_crops_in_image :
  forall (cs ce : Point) (rect : DOMRect) (img : Picture) (s0 : Session),
    let s := s0 |> setImage (Some img) |> withSelection cs ce in
    let stored := originalDimensions s in
    0 < rwidth rect -> 0 < rheight rect ->
    0 <= dwidth stored -> 0 <= dheight stored ->
    0 <= px cs <= rwidth rect -> 0 <= px ce <= rwidth rect ->
    0 <= py cs <= rheight rect -> 0 <= py ce <= rheight rect ->
    exists c sx sy sw sh,
      image (applyCrop rect s) = Some (CanvasData "image/png" c)
      /\ map args (drawn c) = [DrawFrom sx sy sw sh 0 0 sw sh]
      /\ (0 <= sx /\ sx + sw <= dwidth stored)
      /\ (0 <= sy /\ sy + sh <= dheight stored).
Proof.
  intros cs ce rect img s0 s stored Hrw Hrh Hw Hh Hxs Hxe Hys Hye.
  do 5 eexists.
  split; [reflexivity | ]. split; [reflexivity | ].
  split; apply scaled_selection_in_image; assumption.
Qed.

Lemma selection_in_box_crops_in_image_witness :
  let s := fileLoaded photo initialSession
             |> withSelection (mkPoint 10 10) (mkPoint 60 40) in
  exists c sx sy sw sh,
    image (applyCrop shown s) = Some (CanvasData "image/png" c)
    /\ map args (drawn c) = [DrawFrom sx sy sw sh 0 0 sw sh]
    /\ (0 <= sx /\ sx + sw <= 200)
    /\ (0 <= sy /\ sy + sh <= 100).
Proof.
  apply (selection_in_box_crops_in_image
           (mkPoint 10 10) (mkPoint 60 40) shown (FileData photo)
           (fileLoaded photo initialSession));
    first [ reflexivity
          | intros H; discriminate H
          | split; intros H; discriminate H ].
Defined.

(** X18.  In crop mode with a selection started, a move stores an end
    point inside the rectangle of the container, and that point,
    scaled from a displayed box of the container's size to the stored
    size, lies inside the stored image. *)
Theorem move_sample_stays_in_image :
  forall (e : MouseEvent) (s : Session),
    isCropping s = true ->
    cropStart s <> None ->
    0 < rwidth (currentTarget e) ->
    0 < rheight (currentTarget e) ->
    0 <= dwidth (originalDimensions s) ->
    0 <= dheight (originalDimensions s) ->
    exists p,
      cropEnd (handleCropMouseMove e s) = Some p
      /\ cropStart (handleCropMouseMove e s) = cropStart s
      /\ 0 <= px p <= rwidth (currentTarget e)
      /\ 0 <= py p <= rheight (currentTarget e)
      /\ 0 <= px p * (dwidth (originalDimensions s) / rwidth (currentTarget e))
         <= dwidth (originalDimensions s)
      /\ 0 <= py p * (dheight (originalDimensions s) / rheight (currentTarget e))
         <= dheight (originalDimensions s).
Proof.
  intros e s Hmode Hstart Hrw Hrh Hw Hh.
  destruct (move_is_clamped e s Hmode Hstart) as (p & Hp & Hx & Hy);
    try (apply Qlt_le_weak; assumption).
  exists p. split; [exact Hp | ].
  split.
  { unfold handleCropMouseMove. rewrite Hmode.
    destruct (cropStart s) eqn:Hcs; [cbn; now rewrite Hcs | congruence]. }
  split; [exact Hx | ]. split; [exact Hy | ].
  split; apply clamped_maps_inside; assumption.
Qed.

Lemma move_sample_stays_in_image_witness :
  let s := run [FileChosen (Some photo); StartCropping; CropMouseDown press]
               initialSession in
  exists p,
    cropEnd (handleCropMouseMove (mkMouseEvent 500 (-7) shown) s) = Some p
    /\ 0 <= px p <= 100 /\ 0 <= py p <= 50.
Proof.
  destruct (move_sample_stays_in_image
              (mkMouseEvent 500 (-7) shown)
              (run [FileChosen (Some photo); StartCropping; CropMouseDown press]
                   initialSession))
    as (p & Hp & _ & Hx & Hy & _);
    try first [ reflexivity | discriminate | intros H; discriminate H ].
  exists p. split; [exact Hp | split; [exact Hx | exact Hy]].
Defined.

(** ** Filter presets and sliders *)

(** X19.  Each of the eight filter buttons selects its own preset: after
    the press the filter expression is the three slider functions,
    unchanged, followed by a space and that preset's functions, or by
    nothing for the "None" preset, whose functions are empty. *)
Theorem filter_button_applies_its_preset :
  forall (preset : FilterPreset) (s : Session),
    In preset filters ->
    let st := imageState (handle (FilterButton preset) s) in
    filter st = value preset
    /\ slider_filters st = slider_filters (imageState s)
    /\ getFilterCss st
       = if String.eqb (css preset) ""
         then slider_filters (imageState s)
         else (slider_filters (imageState s) ++ " " ++ css preset)%string.
Proof.
  intros preset s Hin st. subst st. cbn [handle].
  rewrite updateState_state.
  split; [reflexivity | ]. split; [reflexivity | ].
  unfold getFilterCss.
  change (filter (spread (imageState s) _)) with (value preset).
  fold (slider_filters (spread (imageState s)
          (mkPatch None None None None None None (Some (value preset)) None))).
  change (slider_filters (spread (imageState s) _))
    with (slider_filters (imageState s)).
  generalize (slider_filters (imageState s)). intros sliders.
  cbn in Hin.
  repeat (destruct Hin as [<- | Hin]; [reflexivity | ]).
  contradiction.
Qed.

Lemma filter_button_applies_its_preset_witness :
  getFilterCss
    (imageState
       (handle (FilterButton (mkFilterPreset "Warm" "warm"
                                             "sepia(30%) saturate(140%)"))
               initialSession))
  = "brightness(100%) contrast(100%) saturate(100%) sepia(30%) saturate(140%)"%string.
Proof.
  refine (proj2 (proj2 (filter_button_applies_its_preset
                          (mkFilterPreset "Warm" "warm"
                                          "sepia(30%) saturate(140%)")
                          initialSession _))).
  cbn. tauto.
Defined.

(** X20.  Changes to different sliders commute in the edit state, and
    of two changes to the same slider the later one wins. *)
Theorem sliders_are_independent :
  forall (b b' c sa : Z) (s : Session),
    imageState (run [BrightnessSlider b; ContrastSlider c] s)
    = imageState (run [ContrastSlider c; BrightnessSlider b] s)
    /\ imageState (run [BrightnessSlider b; SaturationSlider sa] s)
       = imageState (run [SaturationSlider sa; BrightnessSlider b] s)
    /\ imageState (run [ContrastSlider c; SaturationSlider sa] s)
       = imageState (run [SaturationSlider sa; ContrastSlider c] s)
    /\ imageState (run [BrightnessSlider b; BrightnessSlider b'] s)
       = imageState (run [BrightnessSlider b'] s)
    /\ getFilterCss (imageState (run [BrightnessSlider b; ContrastSlider c;
                                      SaturationSlider sa] s))
       = ("brightness(" ++ string_of_Z b ++ "%) contrast("
            ++ string_of_Z c ++ "%) saturate(" ++ string_of_Z sa ++ "%)"
            ++ match find (fun f => String.eqb (value f)
                                               (filter (imageState s)))
                          filters with
               | Some f => if String.eqb (css f) "" then ""
                           else " " ++ css f
               | None => ""
               end)%string.
Proof.
  intros b b' c sa s. cbn [run fold_left handle].
  rewrite !updateState_state.
  repeat split.
  unfold getFilterCss. unfold_spread.
  destruct (find _ filters) as [f | ].
  - destruct (String.eqb (css f) "").
    + now rewrite ?append_assoc, append_empty.
    + now rewrite ?append_assoc.
  - now rewrite ?append_assoc, append_empty.
Qed.

(** ** Loading and resetting *)

(** X21.  A load overwrites everything except crop mode, the selection
    and the aspect-ratio checkbox: the session after it is the mounted
    component with those four kept and the file loaded.  So the result
    does not depend on the image, edits, history or typed sizes from
    before, loading the same file twice is the same as loading it once,
    and a load does not end crop mode or drop a selection. *)
Theorem load_forgets_the_previous_image :
  forall (f : File) (s : Session),
    fileLoaded f s = fileLoaded f (keptByLoad s)
    /\ fileLoaded f (fileLoaded f s) = fileLoaded f s
    /\ isCropping (fileLoaded f s) = isCropping s
    /\ cropStart (fileLoaded f s) = cropStart s
    /\ cropEnd (fileLoaded f s) = cropEnd s
    /\ log_is_reset (fileLoaded f s)
    /\ originalDimensions (fileLoaded f s)
       = mkDimensions (inject_Z (file_width f)) (inject_Z (file_height f)).
Proof.
  intros f s. destruct s.
  do 5 (split; [vm_compute; reflexivity | ]).
  split; [repeat split | vm_compute; reflexivity].
Qed.

(** X22.  Reset All is idempotent, and it leaves the stored dimensions,
    the two resize fields, crop mode and the selection as they are; in
    a session with an image loaded, Undo and Redo are both disabled
    right after it. *)
Theorem reset_all_is_idempotent :
  forall (evs : list Event),
    let s := run evs initialSession in
    resetAll (resetAll s) = resetAll s
    /\ originalDimensions (resetAll s) = originalDimensions s
    /\ resizeWidth (resetAll s) = resizeWidth s
    /\ resizeHeight (resetAll s) = resizeHeight s
    /\ isCropping (resetAll s) = isCropping s
    /\ cropStart (resetAll s) = cropStart s
    /\ cropEnd (resetAll s) = cropEnd s
    /\ (image s = None
        \/ (undoDisabled (resetAll s) = true
            /\ redoDisabled (resetAll s) = true)).
Proof.
  intros evs s.
  pose proof (run_original_tracks_image evs) as Htrack.
  unfold original_tracks_image in Htrack. fold s in Htrack.
  destruct (originalImage s) as [o | ] eqn:Ho.
  - assert (Hr : resetAll s
                 = s |> setImage (Some o) |> setImageState defaultState
                     |> setHistory [defaultState] |> setHistoryIndex 0%nat)
      by (unfold resetAll; now rewrite Ho).
    rewrite !Hr.
    split; [unfold resetAll; cbn; rewrite Ho; reflexivity | ].
    repeat (split; [reflexivity | ]).
    right. split; reflexivity.
  - assert (Hr : resetAll s = s) by (unfold resetAll; now rewrite Ho).
    rewrite !Hr.
    repeat (split; [reflexivity | ]).
    left. congruence.
Qed.

(** ** The size of the history *)

Lemma handle_history_length (ev : Event) (s : Session) :
  history_ok s ->
  (List.length (history (handle ev s))
   <= List.length (history s) + (if isEdit ev then 1 else 0))%nat.
Proof.
  intros [Hlt _].
  assert (Hpush : forall p,
             (List.length (history (updateState p s))
              <= List.length (history s) + 1)%nat).
  { intros p. rewrite updateState_history, length_app, length_firstn.
    cbn. lia. }
  destruct ev; cbn [handle isEdit handleCropMouseUp setIsCropping
                     setMaintainAspectRatio cancelCrop setCropStart
                     setCropEnd history];
    try apply Hpush; try lia.
  - rewrite (proj1 (proj2 (handleCropMouseDown_same_log e s))). lia.
  - rewrite (proj1 (proj2 (handleCropMouseMove_same_log e s))). lia.
  - unfold handleCropMouseUp. lia.
  - rewrite (proj1 (proj2 (applyCrop_same_log rect s))). lia.
  - rewrite (proj1 (proj2 (handleWidthChange_same_log parsed s))). lia.
  - rewrite (proj1 (proj2 (handleHeightChange_same_log parsed s))). lia.
  - rewrite (proj1 (proj2 (handleResize_same_log s))). lia.
  - unfold undo. destruct (_ <? _)%nat; cbn; lia.
  - unfold redo. destruct (_ <? _)%nat; cbn; lia.
  - unfold resetAll. destruct (originalImage s); cbn; lia.
  - destruct file as [f | ]; cbn; lia.
  - destruct file as [f | ]; cbn; [ | lia].
    destruct (prefix _ _); cbn; lia.
Qed.

Lemma run_history_length (evs : list Event) :
  forall s : Session,
    history_ok s ->
    (List.length (history (run evs s))
     <= List.length (history s) + edits evs)%nat.
Proof.
  unfold edits.
  induction evs as [ | ev evs IH]; intros s Hok.
  - cbn. lia.
  - cbn [run fold_left List.filter].
    pose proof (handle_history_length ev s Hok) as Hstep.
    pose proof (IH (handle ev s) (handle_ok ev s Hok)) as Hrest.
    unfold run in Hrest.
    destruct (isEdit ev); cbn [List.length]; lia.
Qed.

(** X23.  The history holds at most one entry per slider, rotation,
    flip or filter event of the session, plus the initial one; undo,
    redo, cropping, resizing and exporting never add an entry, and a
    load or a reset cuts it back to one. *)
Theorem history_grows_only_by_edits :
  forall (evs : list Event),
    (1 <= List.length (history (run evs initialSession)) <= 1 + edits evs)%nat
    /\ (forall f : File,
           List.length (history (run (evs ++ [FileChosen (Some f)])
                                     initialSession)) = 1%nat)
    /\ (edits evs = 0%nat ->
        history (run evs initialSession) = [defaultState]).
Proof.
  intros evs.
  pose proof (run_history_length evs initialSession
                (proj1 initialSession_ok)) as Hlen.
  destruct (run_history_ok evs) as [Hlt _].
  destruct (run_starts_at_default evs) as [_ Hfirst].
  unfold starts_at_default in Hfirst.
  cbn [initialSession history List.length] in Hlen.
  split; [lia | ]. split.
  - intros f. rewrite run_app. reflexivity.
  - intros Hnone. rewrite Hnone in Hlen.
    destruct (history (run evs initialSession)) as [ | st [ | st' h]];
      cbn in *; try lia.
    now rewrite Hfirst.
Qed.

Lemma history_grows_only_by_edits_witness :
  history (run [FileChosen (Some photo); StartCropping; CropMouseDown press;
                CropMouseMove drag; ApplyCrop shown; Undo; Redo;
                ExportAs png]
               initialSession)
  = [defaultState].
Proof.
  apply (history_grows_only_by_edits
           [FileChosen (Some photo); StartCropping; CropMouseDown press;
            CropMouseMove drag; ApplyCrop shown; Undo; Redo; ExportAs png]).
  reflexivity.
Defined.

(** ** The blur of the preview and of the export *)

Lemma presetFunctions_css (f : FilterPreset) :
  In f filters -> css f = String.concat " " (map fn_text (presetFunctions f)).
Proof.
  intros Hin. cbn in Hin.
  repeat (destruct Hin as [<- | Hin]; [vm_compute; reflexivity | ]).
  contradiction.
Qed.


Local Open Scope R_scope.


Local Close Scope R_scope.

